(** * Network-Automation: the fleet configuration scripts, embedded and verified

    The repository holds four command-line scripts that walk a fleet of
    Cisco IOS routers ([scripts/configure_interfaces.py],
    [scripts/configure_vlans.py], [scripts/configure_routing.py] and
    [scripts/backup_configs.py]).  Each script is embedded below in a module
    of its own, function by function, over a small state-and-exception monad:

    - the remote device (netmiko's [ConnectHandler] object) and the wall clock
      are an environment [env] that answers every call from the history of
      the run so far, either with a text or by raising;
    - every device call, every [logger] call and every clock reading is
      appended to a chronological [trace];
    - the backup directory is a finite map from paths to file contents.

    What is left out: console output ([print]); YAML parsing and [.env]
    loading, whose results (inventory, feature descriptions, credentials) are
    arguments of [main], as records with the fields the scripts read; failing
    file writes (the store accepts every write); and exceptions that
    [except Exception] does not catch. *)

From stdpp Require Import base strings list gmap pretty.
From Stdlib Require Import ZArith Ascii.

Local Open Scope string_scope.
Local Open Scope list_scope.

(** ** Python values *)

(** [str(e)] of a raised exception. *)
Definition exn : Type := string.

(** Truth value of a [str]: only the empty string is falsy. *)
Definition truthy (s : string) : bool :=
  match s with
  | EmptyString => false
  | String _ _ => true
  end.

(** [f"{n}"] for an [int]. *)
Definition str_of_int (n : Z) : string := pretty n.

(** The line feed written by [\n]. *)
Definition nl : string := String (ascii_of_nat 10) EmptyString.

(** [s * n] for a [str]. *)
Fixpoint str_mul (s : string) (n : nat) : string :=
  match n with
  | O => EmptyString
  | S k => s +:+ str_mul s k
  end.

(** [''.join(parts)]: the text left in a file by consecutive [f.write]s. *)
Fixpoint join (parts : list string) : string :=
  match parts with
  | [] => EmptyString
  | p :: ps => p +:+ join ps
  end.

(** ** Dates *)

Record datetime : Type := {
  year : nat; month : nat; day : nat;
  hour : nat; minute : nat; second : nat
}.

Definition pad2 (n : nat) : string :=
  if Nat.ltb n 10 then "0" +:+ pretty n else pretty n.

Definition pad4 (n : nat) : string :=
  if Nat.ltb n 10 then "000" +:+ pretty n
  else if Nat.ltb n 100 then "00" +:+ pretty n
  else if Nat.ltb n 1000 then "0" +:+ pretty n
  else pretty n.

(** [strftime("%Y%m%d_%H%M%S")] *)
Definition strftime_compact (t : datetime) : string :=
  pad4 (year t) +:+ pad2 (month t) +:+ pad2 (day t) +:+ "_" +:+
  pad2 (hour t) +:+ pad2 (minute t) +:+ pad2 (second t).

(** [strftime('%Y-%m-%d %H:%M:%S')] *)
Definition strftime_iso (t : datetime) : string :=
  pad4 (year t) +:+ "-" +:+ pad2 (month t) +:+ "-" +:+ pad2 (day t) +:+ " " +:+
  pad2 (hour t) +:+ ":" +:+ pad2 (minute t) +:+ ":" +:+ pad2 (second t).

(** ** Inventory *)

(** One entry of [inventory['routers']]; [port] is read with
    [router.get('port', 22)]. *)
Record router : Type := {
  name : string;
  ip : string;
  device_type : string;
  port : option Z
}.

Record inventory : Type := { routers : list router }.

(** The keyword arguments every script passes to [ConnectHandler]. *)
Record device_params : Type := {
  dp_device_type : string;
  dp_ip : string;
  dp_username : string;
  dp_password : string;
  dp_secret : string;
  dp_port : Z;
  dp_timeout : Z
}.

Definition make_device_params (r : router) (username password secret : string)
  : device_params :=
  {| dp_device_type := device_type r;
     dp_ip := ip r;
     dp_username := username;
     dp_password := password;
     dp_secret := secret;
     dp_port := default 22%Z (port r);
     dp_timeout := 10%Z |}.

(** ** The outside world *)

Inductive level : Type := INFO | WARNING | ERROR.

(** The methods of a netmiko connection that the scripts use. *)
Inductive call : Type :=
  | CConnectHandler
  | CEnable
  | CSendConfigSet (commands : list string)
  | CSendCommand (command : string)
  | CDisconnect.

Inductive event : Type :=
  | Call (dev : device_params) (c : call) (answer : exn + string)
  | Log (lv : level) (msg : string)
  | Clock (t : datetime).

(** What a device answers to a call, and what the clock shows, may depend on
    everything that happened before. *)
Record env : Type := {
  answer_of : list event -> device_params -> call -> exn + string;
  now_of : list event -> datetime
}.

Record state : Type := {
  trace : list event;
  files : gmap string string;
  dirs : gset string
}.

Definition record (e : event) (s : state) : state :=
  {| trace := trace s ++ [e]; files := files s; dirs := dirs s |}.

(** ** The monad: state, plus Python exceptions *)

Definition M (A : Type) : Type := state -> (exn + A) * state.

Definition ret {A} (a : A) : M A := fun s => (inr a, s).

Definition bind {A B} (m : M A) (k : A -> M B) : M B :=
  fun s =>
    match m s with
    | (inr a, s') => k a s'
    | (inl e, s') => (inl e, s')
    end.

(** [try: body / except Exception as e: handler(e)] *)
Definition try_except {A} (body : M A) (handler : exn -> M A) : M A :=
  fun s =>
    match body s with
    | (inr a, s') => (inr a, s')
    | (inl e, s') => handler e s'
    end.

Notation "x <- m ;; k" := (bind m (fun x => k))
  (at level 100, m at next level, right associativity).
Notation "'let*' pat := m 'in' k" := (bind m (fun x => match x with pat => k end))
  (at level 10, pat pattern, m at level 100, k at level 200).
Notation "m ;; k" := (bind m (fun _ => k))
  (at level 100, right associativity).

(** [for x in xs: body], with the local variables the body assigns passed
    along as [acc]. *)
Fixpoint for_in {A S} (xs : list A) (body : A -> S -> M S) (acc : S) : M S :=
  match xs with
  | [] => ret acc
  | x :: rest => acc' <- body x acc ;; for_in rest body acc'
  end.

Definition logger (lv : level) (msg : string) : M unit :=
  fun s => (inr tt, record (Log lv msg) s).

(** [with open(path, 'w') as f:] followed by the [f.write]s of [parts]. *)
Definition write_file (path : string) (parts : list string) : M unit :=
  fun s =>
    (inr tt, {| trace := trace s;
                files := <[path := join parts]> (files s);
                dirs := dirs s |}).

(** [os.path.exists(path)] *)
Definition os_path_exists (path : string) : M bool :=
  fun s => (inr (bool_decide (path ∈ dirs s) || bool_decide (is_Some (files s !! path))), s).

(** [os.makedirs(path)] *)
Definition os_makedirs (path : string) : M unit :=
  fun s =>
    (inr tt, {| trace := trace s; files := files s; dirs := {[path]} ∪ dirs s |}).

(** [a.endswith('/')] *)
Fixpoint ends_with_slash (a : string) : bool :=
  match a with
  | EmptyString => false
  | String c EmptyString => Ascii.eqb c "/"%char
  | String _ rest => ends_with_slash rest
  end.

(** [b.startswith('/')] *)
Definition starts_with_slash (b : string) : bool :=
  match b with
  | EmptyString => false
  | String c _ => Ascii.eqb c "/"%char
  end.

(** [os.path.join(a, b)] on a POSIX system: an absolute [b] stands alone,
    otherwise the two are glued with one slash. *)
Definition os_path_join (a b : string) : string :=
  if starts_with_slash b then b
  else if negb (truthy a) || ends_with_slash a then a +:+ b
  else a +:+ "/" +:+ b.

Section World.
Variable E : env.

Definition device_call (dev : device_params) (c : call) : M string :=
  fun s =>
    let a := answer_of E (trace s) dev c in
    (a, record (Call dev c a) s).

(** [ConnectHandler] applied to the parameters: the connection object is identified
    with the parameters it was opened with. *)
Definition ConnectHandler (p : device_params) : M device_params :=
  _ <- device_call p CConnectHandler ;; ret p.

Definition enable (dev : device_params) : M string :=
  device_call dev CEnable.

Definition send_config_set (dev : device_params) (commands : list string) : M string :=
  device_call dev (CSendConfigSet commands).

Definition send_command (dev : device_params) (command : string) : M string :=
  device_call dev (CSendCommand command).

Definition disconnect (dev : device_params) : M string :=
  device_call dev CDisconnect.

(** [datetime.now()] *)
Definition datetime_now : M datetime :=
  fun s =>
    let t := now_of E (trace s) in
    (inr t, record (Clock t) s).
End World.

(** [not all([username, password, secret])] on the values of [os.getenv]. *)
Definition credentials (username password secret : option string)
  : option (string * string * string) :=
  match username, password, secret with
  | Some u, Some p, Some s =>
      if truthy u && truthy p && truthy s then Some (u, p, s) else None
  | _, _, _ => None
  end.

(** ** scripts/configure_interfaces.py *)

Module Interfaces.

Record interface_config : Type := {
  if_name : string;
  ip_address : string;
  subnet_mask : string;
  description : string;
  enabled : option bool
}.

(** The value under a router name in [interfaces.yml]. *)
Record router_entry : Type := { interfaces : option (list interface_config) }.

(** The list [commands] built by [configure_interface]. *)
Definition interface_commands (interface_config : interface_config) : list string :=
  let commands := [] in
  let commands := commands ++ ["interface " +:+ if_name interface_config] in
  let commands := commands ++
    ["ip address " +:+ ip_address interface_config +:+ " " +:+ subnet_mask interface_config] in
  let commands := commands ++ ["description " +:+ description interface_config] in
  if default true (enabled interface_config)
  then commands ++ ["no shutdown"]
  else commands ++ ["shutdown"].

Section WithEnv.
Variable E : env.

Definition configure_interface (device : device_params)
    (interface_config : interface_config) : M (bool * string) :=
  let commands := interface_commands interface_config in
  try_except
    (output <- send_config_set E device commands ;;
     ret (true, output))
    (fun e =>
       logger ERROR ("Error configuring interface: " +:+ e) ;;
       ret (false, e)).

Definition connect_and_configure (router : router)
    (username password secret : string)
    (interface_configs : list interface_config) : M bool :=
  let device_params := make_device_params router username password secret in
  try_except
    (logger INFO ("Connecting to " +:+ name router +:+ " (" +:+ ip router +:+ ")...") ;;
     device <- ConnectHandler E device_params ;;
     enable E device ;;
     for_in interface_configs
       (fun interface (_ : unit) =>
          let* (success, output) := configure_interface device interface in
          if success : bool
          then logger INFO ("Successfully configured " +:+ if_name interface +:+
                            " on " +:+ name router)
          else logger ERROR ("Failed to configure " +:+ if_name interface +:+
                             " on " +:+ name router))
       tt ;;
     send_command E device "write memory" ;;
     disconnect E device ;;
     ret true)
    (fun e =>
       logger ERROR ("Error connecting to " +:+ name router +:+ ": " +:+ e) ;;
       ret false).

(** [interface_configs.get(router_name, {}).get('interfaces', [])] *)
Definition router_interfaces (interface_configs : gmap string router_entry)
    (router_name : string) : list interface_config :=
  match interface_configs !! router_name with
  | Some entry => default [] (interfaces entry)
  | None => []
  end.

(** The loop of [main] over [inventory['routers']]; the accumulator is
    [(success_count, fail_count)]. *)
Definition process_routers (inventory : inventory)
    (username password secret : string)
    (interface_configs : gmap string router_entry) : M (nat * nat) :=
  for_in (routers inventory)
    (fun router '(success_count, fail_count) =>
       let router_name := name router in
       let router_interfaces := router_interfaces interface_configs router_name in
       match router_interfaces with
       | [] =>
           logger WARNING ("No interface configuration found for " +:+ router_name) ;;
           ret (success_count, fail_count)
       | _ :: _ =>
           ok <- connect_and_configure router username password secret router_interfaces ;;
           if ok : bool
           then ret (S success_count, fail_count)
           else ret (success_count, S fail_count)
       end)
    (0, 0).

(** The same loop, keeping the outcome of every router it works on instead
    of the two counters (a ghost of [process_routers]). *)
Definition outcomes (inventory : inventory)
    (username password secret : string)
    (interface_configs : gmap string router_entry) : M (list bool) :=
  for_in (routers inventory)
    (fun router seen =>
       let router_name := name router in
       let router_interfaces := router_interfaces interface_configs router_name in
       match router_interfaces with
       | [] =>
           logger WARNING ("No interface configuration found for " +:+ router_name) ;;
           ret seen
       | _ :: _ =>
           ok <- connect_and_configure router username password secret router_interfaces ;;
           ret (seen ++ [ok])
       end)
    [].

(** [main]; the value is the process exit status ([sys.exit(1)] at start-up,
    [sys.exit(main())] otherwise). *)
Definition main (username password secret : option string)
    (inventory : inventory)
    (interface_configs : gmap string router_entry) : M Z :=
  match credentials username password secret with
  | None =>
      logger ERROR "Missing credentials. Please check .env file" ;;
      ret 1%Z
  | Some (username, password, secret) =>
      let* (success_count, fail_count) :=
        process_routers inventory username password secret interface_configs in
      ret (if Nat.eqb fail_count 0 then 0%Z else 1%Z)
  end.
End WithEnv.

End Interfaces.

(** ** scripts/configure_vlans.py *)

Module Vlans.

Record subinterface_config : Type := {
  interface : string;
  vlan : Z;
  ip_address : string;
  subnet_mask : string;
  description : string
}.

(** An entry of [vlan_config['vlans']]; [main] only prints these. *)
Record vlan_entry : Type := {
  vlan_id : Z;
  vlan_name : string;
  vlan_description : string
}.

Record vlan_config : Type := {
  vlans : option (list vlan_entry);
  router_subinterfaces : option (gmap string (list subinterface_config))
}.

(** The list [commands] built by [configure_subinterface]. *)
Definition subinterface_commands (subinterface_config : subinterface_config)
  : list string :=
  let commands := [] in
  let commands := commands ++ ["interface " +:+ interface subinterface_config] in
  let commands := commands ++
    ["encapsulation dot1Q " +:+ str_of_int (vlan subinterface_config)] in
  let commands := commands ++
    ["ip address " +:+ ip_address subinterface_config +:+ " " +:+
     subnet_mask subinterface_config] in
  let commands := commands ++ ["description " +:+ description subinterface_config] in
  commands ++ ["no shutdown"].

Section WithEnv.
Variable E : env.

Definition configure_subinterface (device : device_params)
    (subinterface_config : subinterface_config) : M (bool * string) :=
  let commands := subinterface_commands subinterface_config in
  try_except
    (output <- send_config_set E device commands ;;
     ret (true, output))
    (fun e =>
       logger ERROR ("Error configuring subinterface: " +:+ e) ;;
       ret (false, e)).

(** [vlan_config.get('router_subinterfaces', {}).get(router_name, [])] *)
Definition subinterfaces_of (vlan_config : vlan_config) (router_name : string)
  : list subinterface_config :=
  match router_subinterfaces vlan_config with
  | Some m => default [] (m !! router_name)
  | None => []
  end.

Definition connect_and_configure (router : router)
    (username password secret : string)
    (vlan_config : vlan_config) : M bool :=
  let device_params := make_device_params router username password secret in
  try_except
    (logger INFO ("Connecting to " +:+ name router +:+ " (" +:+ ip router +:+ ")...") ;;
     device <- ConnectHandler E device_params ;;
     enable E device ;;
     let router_name := name router in
     let subinterfaces := subinterfaces_of vlan_config router_name in
     match subinterfaces with
     | [] =>
         disconnect E device ;;
         ret true
     | _ :: _ =>
         for_in subinterfaces
           (fun subintf (_ : unit) =>
              let* (success, output) := configure_subinterface device subintf in
              if success : bool
              then logger INFO ("Successfully configured " +:+ interface subintf +:+
                                " on " +:+ router_name)
              else logger ERROR ("Failed to configure " +:+ interface subintf +:+
                                 " on " +:+ router_name))
           tt ;;
         send_command E device "show ip interface brief | include \." ;;
         send_command E device "write memory" ;;
         disconnect E device ;;
         ret true
     end)
    (fun e =>
       logger ERROR ("Error connecting to " +:+ name router +:+ ": " +:+ e) ;;
       ret false).

Definition process_routers (inventory : inventory)
    (username password secret : string)
    (vlan_config : vlan_config) : M (nat * nat) :=
  for_in (routers inventory)
    (fun router '(success_count, fail_count) =>
       ok <- connect_and_configure router username password secret vlan_config ;;
       if ok : bool
       then ret (S success_count, fail_count)
       else ret (success_count, S fail_count))
    (0, 0).

(** The same loop, keeping every outcome (a ghost of [process_routers]). *)
Definition outcomes (inventory : inventory)
    (username password secret : string)
    (vlan_config : vlan_config) : M (list bool) :=
  for_in (routers inventory)
    (fun router seen =>
       ok <- connect_and_configure router username password secret vlan_config ;;
       ret (seen ++ [ok]))
    [].

Definition main (username password secret : option string)
    (inventory : inventory) (vlan_config : vlan_config) : M Z :=
  match credentials username password secret with
  | None =>
      logger ERROR "Missing credentials. Please check .env file" ;;
      ret 1%Z
  | Some (username, password, secret) =>
      let* (success_count, fail_count) :=
        process_routers inventory username password secret vlan_config in
      ret (if Nat.eqb fail_count 0 then 0%Z else 1%Z)
  end.
End WithEnv.

End Vlans.

(** ** scripts/configure_routing.py *)

Module Routing.

Record network_entry : Type := {
  network : string;
  wildcard : string
}.

Record area_config : Type := {
  area : Z;
  networks : list network_entry
}.

Record ospf_config : Type := {
  ospf_enabled : option bool;
  process_id : Z;
  router_id_map : gmap string string;
  areas : gmap string (list area_config)
}.

Record eigrp_config : Type := {
  eigrp_enabled : option bool;
  as_number : Z;
  eigrp_networks : gmap string (list network_entry)
}.

Record routing_config : Type := {
  ospf : option ospf_config;
  eigrp : option eigrp_config
}.

(** The list [commands] built by [configure_ospf]; the two nested [for]
    loops append one statement per network. *)
Definition ospf_commands (router_name : string) (ospf_config : ospf_config)
  : list string :=
  let commands := [] in
  let process_id := process_id ospf_config in
  let router_id := router_id_map ospf_config !! router_name in
  let commands := commands ++ ["router ospf " +:+ str_of_int process_id] in
  let commands :=
    match router_id with
    | Some router_id =>
        if truthy router_id
        then commands ++ ["router-id " +:+ router_id]
        else commands
    | None => commands
    end in
  let areas := default [] (areas ospf_config !! router_name) in
  foldl
    (fun commands area_config =>
       let area := area area_config in
       foldl
         (fun commands network =>
            commands ++
            ["network " +:+ Routing.network network +:+ " " +:+ wildcard network +:+
             " area " +:+ str_of_int area])
         commands (networks area_config))
    commands areas.

(** The list [commands] built by [configure_eigrp]. *)
Definition eigrp_commands (router_name : string) (eigrp_config : eigrp_config)
  : list string :=
  let commands := [] in
  let as_number := as_number eigrp_config in
  let commands := commands ++ ["router eigrp " +:+ str_of_int as_number] in
  let commands := commands ++ ["no auto-summary"] in
  let networks := default [] (eigrp_networks eigrp_config !! router_name) in
  foldl
    (fun commands network =>
       commands ++
       ["network " +:+ Routing.network network +:+ " " +:+ wildcard network])
    commands networks.

(** [routing_config.get('ospf', {}).get('enabled')], as a truth value. *)
Definition is_ospf_enabled (routing_config : routing_config) : bool :=
  match ospf routing_config with
  | Some o => default false (ospf_enabled o)
  | None => false
  end.

Definition is_eigrp_enabled (routing_config : routing_config) : bool :=
  match eigrp routing_config with
  | Some e => default false (eigrp_enabled e)
  | None => false
  end.

Section WithEnv.
Variable E : env.

Definition configure_ospf (device : device_params) (router_name : string)
    (ospf_config : ospf_config) : M (bool * string) :=
  let commands := ospf_commands router_name ospf_config in
  try_except
    (output <- send_config_set E device commands ;;
     ret (true, output))
    (fun e =>
       logger ERROR ("Error configuring OSPF: " +:+ e) ;;
       ret (false, e)).

Definition configure_eigrp (device : device_params) (router_name : string)
    (eigrp_config : eigrp_config) : M (bool * string) :=
  let commands := eigrp_commands router_name eigrp_config in
  try_except
    (output <- send_config_set E device commands ;;
     ret (true, output))
    (fun e =>
       logger ERROR ("Error configuring EIGRP: " +:+ e) ;;
       ret (false, e)).

(** The local variable [success] is assigned by both protocol blocks and
    never read again: the function returns [True] after the save. *)
Definition connect_and_configure (router : router)
    (username password secret : string)
    (routing_config : routing_config) : M bool :=
  let device_params := make_device_params router username password secret in
  try_except
    (logger INFO ("Connecting to " +:+ name router +:+ " (" +:+ ip router +:+ ")...") ;;
     device <- ConnectHandler E device_params ;;
     enable E device ;;
     let router_name := name router in
     let success := false in
     success <-
       match ospf routing_config with
       | Some ospf_section =>
           if default false (ospf_enabled ospf_section)
           then
             let* (success, output) := configure_ospf device router_name ospf_section in
             (if success : bool
              then logger INFO ("Successfully configured OSPF on " +:+ router_name)
              else ret tt) ;;
             ret success
           else ret success
       | None => ret success
       end ;;
     success <-
       match eigrp routing_config with
       | Some eigrp_section =>
           if default false (eigrp_enabled eigrp_section)
           then
             let* (success, output) := configure_eigrp device router_name eigrp_section in
             (if success : bool
              then logger INFO ("Successfully configured EIGRP on " +:+ router_name)
              else ret tt) ;;
             ret success
           else ret success
       | None => ret success
       end ;;
     routing_table <- send_command E device "show ip route" ;;
     send_command E device "write memory" ;;
     disconnect E device ;;
     ret true)
    (fun e =>
       logger ERROR ("Error connecting to " +:+ name router +:+ ": " +:+ e) ;;
       ret false).

Definition process_routers (inventory : inventory)
    (username password secret : string)
    (routing_config : routing_config) : M (nat * nat) :=
  for_in (routers inventory)
    (fun router '(success_count, fail_count) =>
       ok <- connect_and_configure router username password secret routing_config ;;
       if ok : bool
       then ret (S success_count, fail_count)
       else ret (success_count, S fail_count))
    (0, 0).

(** The same loop, keeping every outcome (a ghost of [process_routers]). *)
Definition outcomes (inventory : inventory)
    (username password secret : string)
    (routing_config : routing_config) : M (list bool) :=
  for_in (routers inventory)
    (fun router seen =>
       ok <- connect_and_configure router username password secret routing_config ;;
       ret (seen ++ [ok]))
    [].

Definition main (username password secret : option string)
    (inventory : inventory) (routing_config : routing_config) : M Z :=
  match credentials username password secret with
  | None =>
      logger ERROR "Missing credentials. Please check .env file" ;;
      ret 1%Z
  | Some (username, password, secret) =>
      let ospf_enabled := is_ospf_enabled routing_config in
      let eigrp_enabled := is_eigrp_enabled routing_config in
      if negb (ospf_enabled || eigrp_enabled)
      then
        logger WARNING "No routing protocol is enabled in configuration" ;;
        ret 0%Z
      else
        let* (success_count, fail_count) :=
          process_routers inventory username password secret routing_config in
        ret (if Nat.eqb fail_count 0 then 0%Z else 1%Z)
  end.
End WithEnv.

End Routing.

(** ** scripts/backup_configs.py *)

Module Backup.

(** The seven header lines written before the configuration text. *)
Definition header (stamp router_name router_ip version_info : string) : list string :=
  [ "! Backup Date: " +:+ stamp +:+ nl;
    "! Router: " +:+ router_name +:+ nl;
    "! IP Address: " +:+ router_ip +:+ nl;
    "! " +:+ version_info +:+ nl;
    "!" +:+ nl;
    "! " +:+ str_mul "-" 70 +:+ nl;
    "!" +:+ nl ].

Section WithEnv.
Variable E : env.

Definition backup_router_config (router : router)
    (username password secret : string)
    (backup_dir : string) : M (bool * option string) :=
  let device_params := make_device_params router username password secret in
  try_except
    (logger INFO ("Connecting to " +:+ name router +:+ " (" +:+ ip router +:+ ")...") ;;
     device <- ConnectHandler E device_params ;;
     enable E device ;;
     running_config <- send_command E device "show running-config" ;;
     version_info <- send_command E device "show version | include Version" ;;
     hostname <- send_command E device "show run | include hostname" ;;
     now <- datetime_now E ;;
     let timestamp := strftime_compact now in
     let filename := name router +:+ "_" +:+ timestamp +:+ ".txt" in
     let filepath := os_path_join backup_dir filename in
     let latest_filename := name router +:+ "_latest.txt" in
     let latest_filepath := os_path_join backup_dir latest_filename in
     now <- datetime_now E ;;
     write_file filepath
       (header (strftime_iso now) (name router) (ip router) version_info
        ++ [running_config]) ;;
     now <- datetime_now E ;;
     write_file latest_filepath
       (header (strftime_iso now) (name router) (ip router) version_info
        ++ [running_config]) ;;
     disconnect E device ;;
     logger INFO ("Successfully backed up " +:+ name router +:+ " to " +:+ filename) ;;
     ret (true, Some filename))
    (fun e =>
       logger ERROR ("Error backing up " +:+ name router +:+ ": " +:+ e) ;;
       ret (false, None)).

Definition create_backup_index (backup_dir : string)
    (successful_backups : list (string * string)) : M unit :=
  let index_file := os_path_join backup_dir "README.md" in
  now <- datetime_now E ;;
  write_file index_file
    ([ "# Router Configuration Backups" +:+ nl +:+ nl;
       "Last updated: " +:+ strftime_iso now +:+ nl +:+ nl;
       "## Latest Backups" +:+ nl +:+ nl ] ++
     map (fun '(router_name, filename) =>
            "- **" +:+ router_name +:+ "**: [" +:+ filename +:+ "](" +:+
            filename +:+ ")" +:+ nl)
         successful_backups ++
     [ nl +:+ "## All Backups" +:+ nl +:+ nl;
       "Check the `backups/` directory for historical backups." +:+ nl;
       nl +:+ "## Backup Naming Convention" +:+ nl +:+ nl;
       "- Format: `{RouterName}_{YYYYMMDD_HHMMSS}.txt`" +:+ nl;
       "- Latest: `{RouterName}_latest.txt`" +:+ nl ]).

(** The loop of [main]; the accumulator is
    [(success_count, fail_count, successful_backups)]. *)
Definition process_routers (inventory : inventory)
    (username password secret : string)
    (backup_dir : string) : M (nat * nat * list (string * string)) :=
  for_in (routers inventory)
    (fun router '(success_count, fail_count, successful_backups) =>
       let* (success, filename) :=
         backup_router_config router username password secret backup_dir in
       if success : bool
       then ret (S success_count, fail_count,
                 successful_backups ++ [(name router, default "None" filename)])
       else ret (success_count, S fail_count, successful_backups))
    (0, 0, []).

(** The same loop, keeping every outcome (a ghost of [process_routers]). *)
Definition outcomes (inventory : inventory)
    (username password secret : string)
    (backup_dir : string) : M (list bool) :=
  for_in (routers inventory)
    (fun router seen =>
       let* (success, filename) :=
         backup_router_config router username password secret backup_dir in
       ret (seen ++ [success]))
    [].

(** The start of [main]: create the backup directory if it is missing. *)
Definition ensure_backup_dir (backup_dir : string) : M unit :=
  present <- os_path_exists backup_dir ;;
  if present : bool
  then ret tt
  else
    os_makedirs backup_dir ;;
    logger INFO ("Created backup directory: " +:+ backup_dir).

Definition main (username password secret : option string)
    (inventory : inventory) : M Z :=
  match credentials username password secret with
  | None =>
      logger ERROR "Missing credentials. Please check .env file" ;;
      ret 1%Z
  | Some (username, password, secret) =>
      let backup_dir := "backups" in
      ensure_backup_dir backup_dir ;;
      let* (success_count, fail_count, successful_backups) :=
        process_routers inventory username password secret backup_dir in
      (match successful_backups with
       | [] => ret tt
       | _ :: _ => create_backup_index backup_dir successful_backups
       end) ;;
      ret (if Nat.eqb fail_count 0 then 0%Z else 1%Z)
  end.
End WithEnv.

End Backup.

(** ** The four workflows side by side *)

Inductive workflow : Type :=
  | InterfaceWorkflow (interface_configs : gmap string Interfaces.router_entry)
  | VlanWorkflow (vlan_config : Vlans.vlan_config)
  | RoutingWorkflow (routing_config : Routing.routing_config)
  | BackupWorkflow.

(** The per-device function of a workflow and its outcome. *)
Definition device_workflow (E : env) (w : workflow) (router : router)
    (username password secret : string) : M bool :=
  match w with
  | InterfaceWorkflow interface_configs =>
      Interfaces.connect_and_configure E router username password secret
        (Interfaces.router_interfaces interface_configs (name router))
  | VlanWorkflow vlan_config =>
      Vlans.connect_and_configure E router username password secret vlan_config
  | RoutingWorkflow routing_config =>
      Routing.connect_and_configure E router username password secret routing_config
  | BackupWorkflow =>
      let* (success, filename) :=
        Backup.backup_router_config E router username password secret "backups" in
      ret success
  end.

(** The routers a workflow opens a session to: the interface workflow skips
    the routers it has no interface for, the others take the whole fleet. *)
Definition worked_on (w : workflow) (inventory : inventory) : list router :=
  match w with
  | InterfaceWorkflow interface_configs =>
      filter (fun r => Interfaces.router_interfaces interface_configs (name r) ≠ [])
             (routers inventory)
  | _ => routers inventory
  end.

(** The loop of the workflow's [main], giving [(success_count, fail_count)]. *)
Definition fleet_loop (E : env) (w : workflow) (inventory : inventory)
    (username password secret : string) : M (nat * nat) :=
  match w with
  | InterfaceWorkflow interface_configs =>
      Interfaces.process_routers E inventory username password secret interface_configs
  | VlanWorkflow vlan_config =>
      Vlans.process_routers E inventory username password secret vlan_config
  | RoutingWorkflow routing_config =>
      Routing.process_routers E inventory username password secret routing_config
  | BackupWorkflow =>
      let* (success_count, fail_count, _) :=
        Backup.process_routers E inventory username password secret "backups" in
      ret (success_count, fail_count)
  end.

(** The outcomes of the routers the loop works on, in order. *)
Definition fleet_outcomes (E : env) (w : workflow) (inventory : inventory)
    (username password secret : string) : M (list bool) :=
  match w with
  | InterfaceWorkflow interface_configs =>
      Interfaces.outcomes E inventory username password secret interface_configs
  | VlanWorkflow vlan_config =>
      Vlans.outcomes E inventory username password secret vlan_config
  | RoutingWorkflow routing_config =>
      Routing.outcomes E inventory username password secret routing_config
  | BackupWorkflow =>
      Backup.outcomes E inventory username password secret "backups"
  end.

(** A run of the script: the process exit status. *)
Definition run (E : env) (w : workflow) (username password secret : option string)
    (inventory : inventory) : M Z :=
  match w with
  | InterfaceWorkflow interface_configs =>
      Interfaces.main E username password secret inventory interface_configs
  | VlanWorkflow vlan_config =>
      Vlans.main E username password secret inventory vlan_config
  | RoutingWorkflow routing_config =>
      Routing.main E username password secret inventory routing_config
  | BackupWorkflow =>
      Backup.main E username password secret inventory
  end.



(** ** Reading a trace *)

Global Instance device_params_eq_dec : EqDecision device_params.
Proof. solve_decision. Defined.

(** The devices a connection was attempted to, in order. *)
Definition connect_attempt (e : event) : option device_params :=
  match e with
  | Call d CConnectHandler _ => Some d
  | _ => None
  end.

Definition connects (tr : list event) : list device_params :=
  omap connect_attempt tr.

(** The devices whose session was closed ([disconnect] returned), in order:
    the devices that reached the end of their workflow. *)
Definition close_of (e : event) : option device_params :=
  match e with
  | Call d CDisconnect (inr _) => Some d
  | _ => None
  end.

Definition closes (tr : list event) : list device_params :=
  omap close_of tr.

(** The device calls of a trace. *)
Definition is_call (e : event) : bool :=
  match e with
  | Call _ _ _ => true
  | _ => false
  end.

(** Remove the first occurrence of [d]. *)
Fixpoint remove_one (d : device_params) (l : list device_params) : list device_params :=
  match l with
  | [] => []
  | x :: rest => if decide (x = d) then rest else x :: remove_one d rest
  end.

(** The sessions that were opened and not closed since: [ConnectHandler]
    returning opens one, [disconnect] returning closes it. *)
Definition session_step (open : list device_params) (e : event) : list device_params :=
  match e with
  | Call d CConnectHandler (inr _) => d :: open
  | Call d CDisconnect (inr _) => remove_one d open
  | _ => open
  end.

Definition open_sessions (tr : list event) : list device_params :=
  foldl session_step [] tr.

(** The command sets submitted with [send_config_set], in order. *)
Definition config_set (e : event) : option (device_params * list string) :=
  match e with
  | Call d (CSendConfigSet commands) _ => Some (d, commands)
  | _ => None
  end.

Definition config_sets (tr : list event) : list (device_params * list string) :=
  omap config_set tr.

(** [text.removeprefix(head)] when [text] starts with [head]. *)
Fixpoint strip_prefix (head text : string) : option string :=
  match head, text with
  | EmptyString, _ => Some text
  | String a head', String b text' =>
      if Ascii.eqb a b then strip_prefix head' text' else None
  | String _ _, EmptyString => None
  end.

(** ** Sample worlds, for running the scripts *)

Definition noon : datetime :=
  {| year := 2024; month := 3; day := 9; hour := 12; minute := 30; second := 5 |}.

(** Every call returns. *)
Definition calm : env :=
  {| answer_of := fun _ _ c =>
       match c with
       | CSendCommand "show running-config" => inr "hostname R1"
       | CSendCommand "show version | include Version" => inr "Version 15.2"
       | _ => inr EmptyString
       end;
     now_of := fun _ => noon |}.

(** Every call returns, except the calls [broken] picks out. *)
Definition failing (broken : device_params -> call -> bool) : env :=
  {| answer_of := fun tr d c =>
       if broken d c then inl "timed out" else answer_of calm tr d c;
     now_of := fun _ => noon |}.

Definition start : state := {| trace := []; files := ∅; dirs := ∅ |}.

(** The body of a backup artifact: what follows the seven header lines. *)
Definition artifact_body (stamp router_name router_ip version_info artifact : string)
  : option string :=
  strip_prefix (join (Backup.header stamp router_name router_ip version_info)) artifact.

(** The OSPF description of the scenario: one area-0 network for R1, no
    router id for it. *)
Definition ospf_scenario (pid : Z) : Routing.ospf_config :=
  {| Routing.ospf_enabled := Some true;
     Routing.process_id := pid;
     Routing.router_id_map := ∅;
     Routing.areas :=
       {[ "R1" := [ {| Routing.area := 0%Z;
                       Routing.networks :=
                         [ {| Routing.network := "10.0.0.0";
                              Routing.wildcard := "0.0.0.255" |} ] |} ] ]} |}.

(** Worlds in which one kind of call raises. *)
Definition connection_fails : env :=
  failing (fun _ c => match c with CConnectHandler => true | _ => false end).

Definition command_sets_fail : env :=
  failing (fun _ c => match c with CSendConfigSet _ => true | _ => false end).

Definition save_fails : env :=
  failing (fun _ c =>
             match c with
             | CSendCommand command => String.eqb command "write memory"
             | _ => false
             end).

Definition verification_fails : env :=
  failing (fun _ c =>
             match c with
             | CSendCommand command => String.eqb command "show ip route"
             | _ => false
             end).

Definition uplink : Interfaces.interface_config :=
  {| Interfaces.if_name := "GigabitEthernet0/0";
     Interfaces.ip_address := "10.0.0.1";
     Interfaces.subnet_mask := "255.255.255.0";
     Interfaces.description := "Uplink";
     Interfaces.enabled := None |}.

(** A VLAN description that names no router. *)
Definition no_subinterfaces : Vlans.vlan_config :=
  {| Vlans.vlans := None; Vlans.router_subinterfaces := Some ∅ |}.

Definition ospf_only : Routing.routing_config :=
  {| Routing.ospf := Some (ospf_scenario 1); Routing.eigrp := None |}.

(** A routing description with both protocols switched off. *)
Definition routing_off : Routing.routing_config :=
  {| Routing.ospf :=
       Some {| Routing.ospf_enabled := Some false; Routing.process_id := 1%Z;
               Routing.router_id_map := ∅; Routing.areas := ∅ |};
     Routing.eigrp := None |}.

Definition eigrp_sample : Routing.eigrp_config :=
  {| Routing.eigrp_enabled := Some true; Routing.as_number := 100%Z;
     Routing.eigrp_networks := ∅ |}.

(** The interface description of a fleet in which only R1 has an entry. *)
Definition uplink_of_R1 : gmap string Interfaces.router_entry :=
  {[ "R1" := {| Interfaces.interfaces := Some [uplink] |} ]}.

(** A backup directory that already holds a latest artifact for R1. *)
Definition after_a_first_backup : state :=
  {| trace := [];
     files := {[ "backups/R1_latest.txt" := "! stale" ]};
     dirs := {[ "backups" ]} |}.

(** The read-only command of the Verifying step, for the workflows that
    have one. *)
Definition verification_command (w : workflow) : option string :=
  match w with
  | VlanWorkflow _ => Some "show ip interface brief | include \."
  | RoutingWorkflow _ => Some "show ip route"
  | InterfaceWorkflow _ | BackupWorkflow => None
  end.

(** A subinterface whose VLAN id is out of the 802.1Q range. *)
Definition vlan5000 : Vlans.subinterface_config :=
  {| Vlans.interface := "GigabitEthernet0/0.5000"; Vlans.vlan := 5000%Z;
     Vlans.ip_address := "192.168.50.1"; Vlans.subnet_mask := "255.255.255.0";
     Vlans.description := "Out of range" |}.

Definition R1 : router :=
  {| name := "R1"; ip := "10.0.0.1"; device_type := "cisco_ios"; port := None |}.

Definition R2 : router :=
  {| name := "R2"; ip := "10.0.0.2"; device_type := "cisco_ios"; port := Some 2222%Z |}.

(** ** The protocol of one device session

    A session to [d] goes from [Idle] to [Opened] when [ConnectHandler]
    returns.  While it is opened, command sets may fail (the [configure_*]
    functions catch that), but every other call must return for the session to
    stay on course; [disconnect] returning ends it in [Closed].  A failed
    [ConnectHandler] ends in [Refused], any other failed call in [Errored]. *)

Inductive phase : Type := Idle | Opened | Closed | Refused | Errored.

Definition session_next (d : device_params) (ph : phase) (e : event) : option phase :=
  match e with
  | Log _ _ | Clock _ => Some ph
  | Call d' c a =>
      if decide (d' = d) then
        match ph, c, a with
        | Idle, CConnectHandler, inr _ => Some Opened
        | Idle, CConnectHandler, inl _ => Some Refused
        | Opened, CSendConfigSet _, _ => Some Opened
        | Opened, (CEnable | CSendCommand _), inr _ => Some Opened
        | Opened, (CEnable | CSendCommand _), inl _ => Some Errored
        | Opened, CDisconnect, inr _ => Some Closed
        | Opened, CDisconnect, inl _ => Some Errored
        | _, _, _ => None
        end
      else None
  end.

Fixpoint session_run (d : device_params) (ph : phase) (evs : list event) : option phase :=
  match evs with
  | [] => Some ph
  | e :: rest =>
      match session_next d ph e with
      | Some ph' => session_run d ph' rest
      | None => None
      end
  end.

(** [s'] continues the trace of [s] with [evs]. *)
Definition continues (s s' : state) (evs : list event) : Prop :=
  trace s' = trace s ++ evs.

(** Once a session is closed, refused or errored, nothing more is sent. *)
Definition over (ph : phase) : Prop :=
  match ph with
  | Closed | Refused | Errored => True
  | Idle | Opened => False
  end.

(** How a per-device workflow may end: closed and reported as a success, or
    refused or errored and reported as a failure. *)
Definition finished (b : bool) (ph : phase) : Prop :=
  match ph with
  | Closed => b = true
  | Refused | Errored => b = false
  | Idle | Opened => False
  end.

(** A call other than a command set that raised. *)
Definition failed_call (e : event) : bool :=
  match e with
  | Call _ (CSendConfigSet _) _ => false
  | Call _ _ (inl _) => true
  | _ => false
  end.

(** From phase [ph] of the session to [d], the computation [m] ends in a
    phase accepted by [ok] with its value, or raises in a phase accepted by
    [ko]; the events it adds to the trace are those the protocol allows. *)
Definition tracks {A} (d : device_params) (m : M A) (ph : phase)
    (ok : A -> phase -> Prop) (ko : phase -> Prop) : Prop :=
  forall s, exists r s' evs ph',
    m s = (r, s') /\ continues s s' evs /\ session_run d ph evs = Some ph' /\
    match r with
    | inr a => ok a ph'
    | inl _ => ko ph'
    end.

(** ** Counting outcomes *)

Definition successes (outcomes : list bool) : nat :=
  length (filter (fun b => b = true) outcomes).

Definition failures (outcomes : list bool) : nat :=
  length (filter (fun b => b = false) outcomes).

(** The invariant of the loop over the fleet, after the routers [seen]: the
    counters agree with the outcomes so far, and a connection was attempted
    to each router worked on, in order. *)
Definition counted (w : workflow) (u p sec : string) (s0 : state)
    (seen : list router) (counts : nat * nat) (os : list bool) (s : state) : Prop :=
  counts = (successes os, failures os) /\
  length os = length (worked_on w {| routers := seen |}) /\
  connects (trace s) =
    connects (trace s0) ++
    map (fun r => make_device_params r u p sec) (worked_on w {| routers := seen |}) /\
  length (closes (trace s)) = length (closes (trace s0)) + successes os.

(** ** More ways to read a run *)

(** The session reached privileged mode: [enable] returned. *)
Definition enable_returned (e : event) : bool :=
  match e with
  | Call _ CEnable (inr _) => true
  | _ => false
  end.

(** [enable] returned somewhere in [evs]. *)
Definition privileged (evs : list event) : bool := existsb enable_returned evs.

(** The events a [configure_*] step may add: log entries and command sets. *)
Definition configuring (e : event) : bool :=
  match e with
  | Log _ _ => true
  | Call _ (CSendConfigSet _) _ => true
  | _ => false
  end.


(** The command sets a workflow may submit to a router: those of its own
    entry in the feature description. *)
Definition own_command_sets (w : workflow) (router : router) : list (list string) :=
  match w with
  | InterfaceWorkflow interface_configs =>
      map Interfaces.interface_commands
          (Interfaces.router_interfaces interface_configs (name router))
  | VlanWorkflow vlan_config =>
      map Vlans.subinterface_commands (Vlans.subinterfaces_of vlan_config (name router))
  | RoutingWorkflow routing_config =>
      match Routing.ospf routing_config with
      | Some o =>
          if default false (Routing.ospf_enabled o)
          then [Routing.ospf_commands (name router) o] else []
      | None => []
      end ++
      match Routing.eigrp routing_config with
      | Some e =>
          if default false (Routing.eigrp_enabled e)
          then [Routing.eigrp_commands (name router) e] else []
      | None => []
      end
  | BackupWorkflow => []
  end.

(** A call goes to a router of the inventory, with the credentials of the
    run, and a command set is one of that router's own. *)
Definition addressed (w : workflow) (inventory : inventory)
    (username password secret : option string) (e : event) : Prop :=
  match e with
  | Call d c _ =>
      exists r u p sec,
        r ∈ routers inventory /\
        credentials username password secret = Some (u, p, sec) /\
        d = make_device_params r u p sec /\
        match c with
        | CSendConfigSet commands => commands ∈ own_command_sets w r
        | _ => True
        end
  | _ => True
  end.

(** The paths a backup run may write: the index, and the two artifacts of a
    router of the inventory. *)
Definition artifact_path (inventory : inventory) (path : string) : Prop :=
  path = os_path_join "backups" "README.md" \/
  exists r, r ∈ routers inventory /\
    (path = os_path_join "backups" (name r +:+ "_latest.txt") \/
     exists t, path = os_path_join "backups"
                        (name r +:+ "_" +:+ strftime_compact t +:+ ".txt")).

(** From [s] to [s']: the events added satisfy [P]; a path whose content
    changed is in [W] and holds a file; no directory is removed, and a new
    directory is in [D]. *)
Definition confined (P : event -> Prop) (W D : string -> Prop) (s s' : state) : Prop :=
  (exists evs, continues s s' evs /\ Forall P evs) /\
  (forall path, files s' !! path <> files s !! path ->
     W path /\ is_Some (files s' !! path)) /\
  (forall dir, dir ∈ dirs s -> dir ∈ dirs s') /\
  (forall dir, dir ∈ dirs s' -> dir ∈ dirs s \/ D dir).

(** The store is left alone. *)
Definition store_untouched (s s' : state) : Prop :=
  files s' = files s /\ dirs s' = dirs s.

(** [m] relates every state to the state it leaves, by [R]. *)
Definition keeps {A} (R : state -> state -> Prop) (m : M A) : Prop :=
  forall s, R s (m s).2.

(** No path at all. *)
Definition nowhere (path : string) : Prop := False.



(** Whether the per-device function of [w] reaches a [write memory] for
    [router]: the backup never does, the VLAN workflow only when the router
    has subinterfaces. *)
Definition saves (w : workflow) (router : router) : bool :=
  match w with
  | InterfaceWorkflow _ | RoutingWorkflow _ => true
  | VlanWorkflow vlan_config =>
      match Vlans.subinterfaces_of vlan_config (name router) with
      | [] => false
      | _ :: _ => true
      end
  | BackupWorkflow => false
  end.

(** A [write memory]. *)
Definition save_call (e : event) : bool :=
  match e with
  | Call _ (CSendCommand command) _ => String.eqb command "write memory"
  | _ => false
  end.





(** A credential that [all([...])] rejects: unset, or set to the empty string. *)
Definition missing (credential : option string) : Prop :=
  credential = None \/ credential = Some EmptyString.

(** No command is sent before [enable] returned: [privileged] tells whether it
    has, so far. *)
Fixpoint guarded (privileged : bool) (evs : list event) : bool :=
  match evs with
  | [] => true
  | Call _ CEnable (inr _) :: rest => guarded true rest
  | Call _ (CSendConfigSet _) _ :: rest => privileged && guarded privileged rest
  | Call _ (CSendCommand _) _ :: rest => privileged && guarded privileged rest
  | _ :: rest => guarded privileged rest
  end.


(** [ConnectHandler] returned: a session was opened. *)
Definition connect_returned (e : event) : bool :=
  match e with
  | Call _ CConnectHandler (inr _) => true
  | _ => false
  end.

Definition connected (evs : list event) : bool := existsb connect_returned evs.

(** * Proofs *)

(** ** Traces and the monad *)

Lemma continues_refl s : continues s s [].
Proof. unfold continues. by rewrite app_nil_r. Qed.

Lemma continues_trans s1 s2 s3 evs1 evs2 :
  continues s1 s2 evs1 -> continues s2 s3 evs2 -> continues s1 s3 (evs1 ++ evs2).
Proof. unfold continues. intros H1 H2. by rewrite H2, H1, app_assoc. Qed.

Lemma session_next_call d ph c a :
  session_next d ph (Call d c a) =
  match ph, c, a with
  | Idle, CConnectHandler, inr _ => Some Opened
  | Idle, CConnectHandler, inl _ => Some Refused
  | Opened, CSendConfigSet _, _ => Some Opened
  | Opened, (CEnable | CSendCommand _), inr _ => Some Opened
  | Opened, (CEnable | CSendCommand _), inl _ => Some Errored
  | Opened, CDisconnect, inr _ => Some Closed
  | Opened, CDisconnect, inl _ => Some Errored
  | _, _, _ => None
  end.
Proof. unfold session_next. destruct (decide (d = d)); [done | congruence]. Qed.

Lemma session_run_app d ph evs1 evs2 :
  session_run d ph (evs1 ++ evs2) =
  match session_run d ph evs1 with
  | Some ph' => session_run d ph' evs2
  | None => None
  end.
Proof.
  revert ph. induction evs1 as [|e evs1 IH]; intros ph; simpl; [done|].
  destruct (session_next d ph e); [apply IH | done].
Qed.

(** ** A calculus for following a session through a computation *)

Section Tracking.
Variable d : device_params.

Lemma tracks_ret {A} (a : A) ph (ok : A -> phase -> Prop) ko :
  ok a ph -> tracks d (ret a) ph ok ko.
Proof.
  intros H s. exists (inr a), s, [], ph. split; [done|].
  split; [apply continues_refl|]. done.
Qed.

Lemma tracks_bind {A B} (m : M A) (k : A -> M B) ph ok ko :
  tracks d m ph (fun a ph' => tracks d (k a) ph' ok ko) ko ->
  tracks d (bind m k) ph ok ko.
Proof.
  intros H s. destruct (H s) as ([e|a] & s1 & evs1 & ph1 & Hm & Hc1 & Hr1 & Hpost).
  - exists (inl e), s1, evs1, ph1. unfold bind. by rewrite Hm.
  - destruct (Hpost s1) as (r & s2 & evs2 & ph2 & Hk & Hc2 & Hr2 & Hpost2).
    exists r, s2, (evs1 ++ evs2), ph2. unfold bind. rewrite Hm.
    split; [done|]. split; [by eapply continues_trans|].
    by rewrite session_run_app, Hr1.
Qed.

Lemma tracks_try_except {A} (body : M A) (handler : exn -> M A) ph ok ko :
  tracks d body ph ok (fun ph' => forall e, tracks d (handler e) ph' ok ko) ->
  tracks d (try_except body handler) ph ok ko.
Proof.
  intros H s. destruct (H s) as ([e|a] & s1 & evs1 & ph1 & Hm & Hc1 & Hr1 & Hpost).
  - destruct (Hpost e s1) as (r & s2 & evs2 & ph2 & Hk & Hc2 & Hr2 & Hpost2).
    exists r, s2, (evs1 ++ evs2), ph2. unfold try_except. rewrite Hm.
    split; [done|]. split; [by eapply continues_trans|].
    by rewrite session_run_app, Hr1.
  - exists (inr a), s1, evs1, ph1. unfold try_except. by rewrite Hm.
Qed.

Lemma tracks_weaken {A} (m : M A) ph (ok ok' : A -> phase -> Prop) (ko ko' : phase -> Prop) :
  tracks d m ph ok ko ->
  (forall a ph', ok a ph' -> ok' a ph') -> (forall ph', ko ph' -> ko' ph') ->
  tracks d m ph ok' ko'.
Proof.
  intros H Hok Hko s. destruct (H s) as (r & s1 & evs & ph1 & Hm & Hc & Hr & Hpost).
  exists r, s1, evs, ph1. repeat split; try done. destruct r; auto.
Qed.

Lemma tracks_logger lv msg ph (ok : unit -> phase -> Prop) ko :
  ok tt ph -> tracks d (logger lv msg) ph ok ko.
Proof.
  intros H s. exists (inr tt), (record (Log lv msg) s), [Log lv msg], ph. done.
Qed.

Lemma tracks_write_file path parts ph (ok : unit -> phase -> Prop) ko :
  ok tt ph -> tracks d (write_file path parts) ph ok ko.
Proof.
  intros H s. eexists (inr tt), _, [], ph. split; [done|].
  split; [|done]. unfold continues. simpl. by rewrite app_nil_r.
Qed.

Lemma tracks_for_in {A S} (xs : list A) (body : A -> S -> M S) acc ph :
  (forall x acc, tracks d (body x acc) ph (fun _ ph' => ph' = ph) (fun _ => False)) ->
  tracks d (for_in xs body acc) ph (fun _ ph' => ph' = ph) (fun _ => False).
Proof.
  intros Hbody. revert acc. induction xs as [|x xs IH]; intros acc; simpl.
  - by apply tracks_ret.
  - apply tracks_bind. eapply tracks_weaken; [apply Hbody| |done].
    intros acc' ph' ->. apply IH.
Qed.

Section Calls.
Variable E : env.

Lemma tracks_device_call c ph (ok : string -> phase -> Prop) ko :
  (forall a, match session_next d ph (Call d c a) with
             | Some ph' => match a with inr x => ok x ph' | inl _ => ko ph' end
             | None => False
             end) ->
  tracks d (device_call E d c) ph ok ko.
Proof.
  intros H s. set (a := answer_of E (trace s) d c). specialize (H a).
  destruct (session_next d ph (Call d c a)) as [ph'|] eqn:Hn; [|done].
  exists a, (record (Call d c a) s), [Call d c a], ph'.
  split; [done|]. split; [done|]. unfold session_run. by rewrite Hn.
Qed.

Lemma tracks_datetime_now ph (ok : datetime -> phase -> Prop) ko :
  (forall t, ok t ph) -> tracks d (datetime_now E) ph ok ko.
Proof.
  intros H s. eexists (inr _), _, [Clock _], ph. split; [done|]. split; [done|].
  split; [done|]. apply H.
Qed.
End Calls.
End Tracking.

Ltac track_call :=
  apply tracks_device_call; intros [?|?]; rewrite session_next_call.

Ltac track :=
  repeat first
    [ apply tracks_bind
    | apply tracks_try_except
    | apply tracks_logger
    | apply tracks_write_file
    | apply tracks_datetime_now; intros ?
    | apply tracks_ret
    | progress unfold ConnectHandler, enable, send_config_set, send_command, disconnect
    | track_call
    | progress intros
    | progress cbv beta iota ].


Ltac track_loop :=
  eapply tracks_weaken;
  [ apply tracks_for_in; intros ? ?
  | intros ? ? ->
  | cbv beta; tauto ].

Section Sessions.
Variable E : env.

Lemma configure_interface_tracks d ic :
  tracks d (Interfaces.configure_interface E d ic) Opened
         (fun _ ph => ph = Opened) (fun _ => False).
Proof. unfold Interfaces.configure_interface. track; done. Qed.

Lemma configure_subinterface_tracks d sc :
  tracks d (Vlans.configure_subinterface E d sc) Opened
         (fun _ ph => ph = Opened) (fun _ => False).
Proof. unfold Vlans.configure_subinterface. track; done. Qed.

Lemma configure_ospf_tracks d n oc :
  tracks d (Routing.configure_ospf E d n oc) Opened
         (fun _ ph => ph = Opened) (fun _ => False).
Proof. unfold Routing.configure_ospf. track; done. Qed.

Lemma configure_eigrp_tracks d n ec :
  tracks d (Routing.configure_eigrp E d n ec) Opened
         (fun _ ph => ph = Opened) (fun _ => False).
Proof. unfold Routing.configure_eigrp. track; done. Qed.

Lemma interfaces_session r u p sec ics :
  tracks (make_device_params r u p sec)
         (Interfaces.connect_and_configure E r u p sec ics) Idle
         finished (fun _ => False).
Proof.
  unfold Interfaces.connect_and_configure.
  track; try done.
  track_loop; track; done.
Qed.

Lemma vlans_session r u p sec cfg :
  tracks (make_device_params r u p sec)
         (Vlans.connect_and_configure E r u p sec cfg) Idle
         finished (fun _ => False).
Proof.
  unfold Vlans.connect_and_configure.
  track; try done.
  destruct (Vlans.subinterfaces_of cfg (name r)) as [|sc scs]; [track; done|].
  generalize (sc :: scs). intros subinterfaces.
  apply tracks_bind. track_loop; track; done.
Qed.

Lemma routing_session r u p sec cfg :
  tracks (make_device_params r u p sec)
         (Routing.connect_and_configure E r u p sec cfg) Idle
         finished (fun _ => False).
Proof.
  unfold Routing.connect_and_configure.
  track; try done.
  eapply tracks_weaken with (ok := fun _ ph => ph = Opened) (ko := fun _ => False);
    [ | intros ? ? -> | cbv beta; tauto ].
  { destruct (Routing.ospf cfg) as [o|]; [|by track].
    destruct (default false (Routing.ospf_enabled o)); [|by track].
    track; done. }
  track.
  eapply tracks_weaken with (ok := fun _ ph => ph = Opened) (ko := fun _ => False);
    [ | intros ? ? -> | cbv beta; tauto ].
  { destruct (Routing.eigrp cfg) as [o|]; [|by track].
    destruct (default false (Routing.eigrp_enabled o)); [|by track].
    track; done. }
  track; done.
Qed.

Lemma backup_session r u p sec dir :
  tracks (make_device_params r u p sec)
         (Backup.backup_router_config E r u p sec dir) Idle
         (fun x ph => finished x.1 ph) (fun _ => False).
Proof.
  unfold Backup.backup_router_config.
  track; done.
Qed.
End Sessions.

(** ** What the protocol says about a trace *)

Lemma session_next_inv d ph e ph' :
  session_next d ph e = Some ph' ->
  (ph' = ph /\ is_call e = false) \/
  (exists c a, e = Call d c a /\
     match ph, c, a with
     | Idle, CConnectHandler, inr _ => ph' = Opened
     | Idle, CConnectHandler, inl _ => ph' = Refused
     | Opened, CSendConfigSet _, _ => ph' = Opened
     | Opened, (CEnable | CSendCommand _), inr _ => ph' = Opened
     | Opened, (CEnable | CSendCommand _), inl _ => ph' = Errored
     | Opened, CDisconnect, inr _ => ph' = Closed
     | Opened, CDisconnect, inl _ => ph' = Errored
     | _, _, _ => False
     end).
Proof.
  destruct e as [d' c a| |]; simpl; [|intros [= <-]; by left..].
  destruct (decide (d' = d)) as [->|]; [|done].
  intros H. right. exists c, a. split; [done|].
  destruct ph, c, a; simplify_eq; done.
Qed.

Lemma session_run_over d ph evs ph' :
  over ph -> session_run d ph evs = Some ph' ->
  ph' = ph /\ Forall (fun e => is_call e = false) evs.
Proof.
  intros Hover. induction evs as [|e evs IH]; simpl.
  - intros [= <-]. done.
  - destruct (session_next d ph e) as [ph1|] eqn:Hn; [|done].
    apply session_next_inv in Hn as [[-> Hc]|(c & a & -> & Hm)].
    + intros H. destruct (IH H) as [-> ?]. by split; [|constructor].
    + destruct ph, c, a; done.
Qed.

Lemma connects_cons e evs :
  connects (e :: evs) = option_list (connect_attempt e) ++ connects evs.
Proof. unfold connects. simpl. by destruct (connect_attempt e). Qed.

Lemma connects_app evs1 evs2 :
  connects (evs1 ++ evs2) = connects evs1 ++ connects evs2.
Proof. apply omap_app. Qed.

Lemma connects_not_call evs :
  Forall (fun e => is_call e = false) evs -> connects evs = [].
Proof.
  induction 1 as [|e evs He _ IH]; [done|].
  rewrite connects_cons, IH. by destruct e.
Qed.

Lemma closes_cons e evs :
  closes (e :: evs) = option_list (close_of e) ++ closes evs.
Proof. unfold closes. simpl. by destruct (close_of e). Qed.

Lemma closes_app evs1 evs2 :
  closes (evs1 ++ evs2) = closes evs1 ++ closes evs2.
Proof. apply omap_app. Qed.

Lemma closes_not_call evs :
  Forall (fun e => is_call e = false) evs -> closes evs = [].
Proof.
  induction 1 as [|e evs He _ IH]; [done|].
  rewrite closes_cons, IH. by destruct e.
Qed.

Lemma open_sessions_not_call l evs :
  Forall (fun e => is_call e = false) evs -> foldl session_step l evs = l.
Proof.
  induction 1 as [|e evs He _ IH]; [done|].
  simpl. by destruct e.
Qed.

Lemma session_run_opened d evs ph' l :
  session_run d Opened evs = Some ph' ->
  connects evs = [] /\
  foldl session_step l evs = match ph' with Closed => remove_one d l | _ => l end /\
  ph' <> Idle /\ ph' <> Refused.
Proof.
  induction evs as [|e evs IH]; cbn [session_run foldl].
  - intros [= <-]. done.
  - destruct (session_next d Opened e) as [ph1|] eqn:Hn; [|done].
    apply session_next_inv in Hn as [[-> Hc]|(c & a & -> & Hm)].
    + intros H. destruct (IH H) as (Hc1 & Hf & ?). rewrite connects_cons, Hc1.
      destruct e; simplify_eq/=; done.
    + intros H. rewrite connects_cons.
      destruct c, a; subst; cbn [session_step]; try done;
        try (destruct (IH H) as (Hc1 & Hf & ?); by rewrite Hc1);
        apply session_run_over in H as [-> Hq]; try done;
        rewrite connects_not_call, ?open_sessions_not_call by done; done.
Qed.

Lemma session_run_idle d evs ph' l :
  session_run d Idle evs = Some ph' -> ph' <> Idle ->
  connects evs = [d] /\
  foldl session_step l evs =
    match ph' with Opened | Errored => d :: l | _ => l end.
Proof.
  induction evs as [|e evs IH]; cbn [session_run foldl].
  - intros [= <-]. done.
  - destruct (session_next d Idle e) as [ph1|] eqn:Hn; [|done].
    apply session_next_inv in Hn as [[-> Hc]|(c & a & -> & Hm)].
    + intros H Hne. destruct (IH H Hne) as [Hc1 Hf]. rewrite connects_cons, Hc1.
      destruct e; simplify_eq/=; done.
    + intros H Hne. rewrite connects_cons.
      destruct c, a; subst; cbn [session_step]; try done.
      * apply session_run_over in H as [-> Hq]; [|done].
        by rewrite connects_not_call, open_sessions_not_call.
      * apply (session_run_opened _ _ _ (d :: l)) in H as (Hc1 & Hf & Hi & Hr).
        rewrite Hc1, Hf.
        split; [done|]. destruct ph'; try done. simpl. by rewrite decide_True.
Qed.

Lemma session_run_opened_closes d evs ph' :
  session_run d Opened evs = Some ph' ->
  closes evs = match ph' with Closed => [d] | _ => [] end.
Proof.
  induction evs as [|e evs IH]; cbn [session_run].
  - by intros [= <-].
  - destruct (session_next d Opened e) as [ph1|] eqn:Hn; [|done].
    apply session_next_inv in Hn as [[-> Hc]|(c & a & -> & Hm)].
    + intros H. rewrite closes_cons, (IH H). by destruct e.
    + intros H. rewrite closes_cons.
      destruct c, a; subst; try done; try (by rewrite (IH H));
        apply session_run_over in H as [-> Hq]; try done;
        by rewrite closes_not_call.
Qed.

Lemma session_run_idle_closes d evs ph' :
  session_run d Idle evs = Some ph' ->
  closes evs = match ph' with Closed => [d] | _ => [] end.
Proof.
  induction evs as [|e evs IH]; cbn [session_run].
  - by intros [= <-].
  - destruct (session_next d Idle e) as [ph1|] eqn:Hn; [|done].
    apply session_next_inv in Hn as [[-> Hc]|(c & a & -> & Hm)].
    + intros H. rewrite closes_cons, (IH H). by destruct e.
    + intros H. rewrite closes_cons. destruct c, a; subst; try done.
      * apply session_run_over in H as [-> Hq]; [|done].
        by rewrite closes_not_call.
      * by apply session_run_opened_closes in H.
Qed.

Lemma session_run_failed_call d ph evs ph' :
  session_run d ph evs = Some ph' ->
  Exists (fun e => failed_call e = true) evs -> ph' = Refused \/ ph' = Errored.
Proof.
  revert ph. induction evs as [|e evs IH]; intros ph; simpl; [by inversion 2|].
  destruct (session_next d ph e) as [ph1|] eqn:Hn; [|done].
  intros H Hex. apply Exists_cons in Hex as [Hf|Hex]; [|by eapply IH].
  apply session_next_inv in Hn as [[-> Hc]|(c & a & -> & Hm)].
  - by destruct e.
  - destruct ph, c, a; try done; subst;
      apply session_run_over in H as [-> _]; auto; done.
Qed.

Lemma session_run_no_failed_call d ph evs ph' :
  session_run d ph evs = Some ph' ->
  Forall (fun e => failed_call e = false) evs -> ph' = Refused \/ ph' = Errored ->
  ph = Refused \/ ph = Errored.
Proof.
  revert ph. induction evs as [|e evs IH]; intros ph; simpl; [by intros [= <-]|].
  destruct (session_next d ph e) as [ph1|] eqn:Hn; [|done].
  intros H Hall Hph. apply Forall_cons in Hall as [Hf Hall].
  specialize (IH _ H Hall Hph).
  apply session_next_inv in Hn as [[-> Hc]|(c & a & -> & Hm)]; [done|].
  destruct ph, c, a; try done; subst; destruct IH; done.
Qed.

(** ** The loop over the fleet *)

Lemma successes_snoc os b :
  successes (os ++ [b]) = if b then S (successes os) else successes os.
Proof.
  unfold successes. rewrite filter_app, length_app.
  destruct b; [rewrite filter_cons_True by done | rewrite filter_cons_False by done];
    simpl; lia.
Qed.

Lemma failures_snoc os b :
  failures (os ++ [b]) = if b then failures os else S (failures os).
Proof.
  unfold failures. rewrite filter_app, length_app.
  destruct b; [rewrite filter_cons_False by done | rewrite filter_cons_True by done];
    simpl; lia.
Qed.



Lemma successes_failures os : successes os + failures os = length os.
Proof.
  induction os as [|b os IH] using rev_ind; [done|].
  rewrite successes_snoc, failures_snoc, length_app. destruct b; simpl; lia.
Qed.

Lemma bind_inr {A B} (m : M A) (k : A -> M B) s a s1 :
  m s = (inr a, s1) -> bind m k s = k a s1.
Proof. unfold bind. by intros ->. Qed.

(** Two loops over the same list whose bodies move in step. *)
Lemma for_in_pair {A S1 S2} (Inv : list A -> S1 -> S2 -> state -> Prop)
    (body1 : A -> S1 -> M S1) (body2 : A -> S2 -> M S2) :
  (forall seen x a1 a2 s, Inv seen a1 a2 s ->
     exists a1' a2' s', body1 x a1 s = (inr a1', s') /\ body2 x a2 s = (inr a2', s') /\
                        Inv (seen ++ [x]) a1' a2' s') ->
  forall xs seen a1 a2 s, Inv seen a1 a2 s ->
    exists a1' a2' s', for_in xs body1 a1 s = (inr a1', s') /\
                       for_in xs body2 a2 s = (inr a2', s') /\
                       Inv (seen ++ xs) a1' a2' s'.
Proof.
  intros Hbody. induction xs as [|x xs IH]; intros seen a1 a2 s HI; simpl.
  - exists a1, a2, s. by rewrite app_nil_r.
  - destruct (Hbody _ x _ _ _ HI) as (b1 & b2 & s1 & H1 & H2 & HI1).
    destruct (IH _ _ _ _ HI1) as (c1 & c2 & s2 & G1 & G2 & HI2).
    exists c1, c2, s2. unfold bind. rewrite H1, H2, G1, G2.
    by rewrite <- app_assoc in HI2.
Qed.

Lemma tracks_returns {A} d (m : M A) ph ok s :
  tracks d m ph ok (fun _ => False) ->
  exists a s' evs ph', m s = (inr a, s') /\ continues s s' evs /\
                       session_run d ph evs = Some ph' /\ ok a ph'.
Proof.
  intros H. destruct (H s) as ([e|a] & s' & evs & ph' & Hm & Hc & Hr & Hpost); [done|].
  by exists a, s', evs, ph'.
Qed.

Lemma finished_not_idle b ph : finished b ph -> ph <> Idle.
Proof. by destruct ph. Qed.

Section Fleet.
Variable E : env.

Lemma device_workflow_session w r u p sec :
  tracks (make_device_params r u p sec) (device_workflow E w r u p sec) Idle
         finished (fun _ => False).
Proof.
  destruct w; simpl.
  - apply interfaces_session.
  - apply vlans_session.
  - apply routing_session.
  - apply tracks_bind. eapply tracks_weaken; [apply backup_session| |done].
    intros [b fn] ph Hf. by apply tracks_ret.
Qed.

(** One device: the workflow returns an outcome, having tried to connect to
    this device and to no other. *)
Lemma device_workflow_step w r u p sec s :
  exists b s', device_workflow E w r u p sec s = (inr b, s') /\
    connects (trace s') = connects (trace s) ++ [make_device_params r u p sec] /\
    closes (trace s') =
      closes (trace s) ++ (if b then [make_device_params r u p sec] else []).
Proof.
  destruct (tracks_returns _ _ _ _ s (device_workflow_session w r u p sec))
    as (b & s' & evs & ph & Hm & Hc & Hr & Hf).
  exists b, s'. split; [done|]. rewrite Hc, connects_app, closes_app.
  rewrite (session_run_idle_closes _ _ _ Hr).
  apply (session_run_idle _ _ _ []) in Hr as [-> _]; [|by eapply finished_not_idle].
  split; [done|]. by destruct ph, b.
Qed.

Lemma backup_step r u p sec dir s :
  exists b fn s', Backup.backup_router_config E r u p sec dir s = (inr (b, fn), s') /\
    connects (trace s') = connects (trace s) ++ [make_device_params r u p sec] /\
    closes (trace s') =
      closes (trace s) ++ (if b then [make_device_params r u p sec] else []).
Proof.
  destruct (tracks_returns _ _ _ _ s (backup_session E r u p sec dir))
    as ([b fn] & s' & evs & ph & Hm & Hc & Hr & Hf).
  exists b, fn, s'. split; [done|]. rewrite Hc, connects_app, closes_app.
  rewrite (session_run_idle_closes _ _ _ Hr).
  apply (session_run_idle _ _ _ []) in Hr as [-> _]; [|by eapply finished_not_idle].
  split; [done|]. by destruct ph, b.
Qed.

Lemma counted_nil w u p sec s0 : counted w u p sec s0 [] (0, 0) [] s0.
Proof.
  split; [done|]. split; [by destruct w|].
  split; [destruct w; simpl; by rewrite app_nil_r | done].
Qed.

Lemma counted_snoc w u p sec s0 seen r os s (b : bool) s' :
  worked_on w {| routers := seen ++ [r] |} = worked_on w {| routers := seen |} ++ [r] ->
  counted w u p sec s0 seen (successes os, failures os) os s ->
  connects (trace s') = connects (trace s) ++ [make_device_params r u p sec] /\
  closes (trace s') =
    closes (trace s) ++ (if b then [make_device_params r u p sec] else []) ->
  counted w u p sec s0 (seen ++ [r])
    (successes (os ++ [b]), failures (os ++ [b])) (os ++ [b]) s'.
Proof.
  intros Hw (_ & Hlen & Hc & Hd) [Hc' Hd']. split; [done|]. rewrite Hw.
  split; [rewrite !length_app, Hlen; done|].
  split; [by rewrite Hc', Hc, map_app, <- app_assoc|].
  rewrite Hd', length_app, Hd, successes_snoc. destruct b; simpl; lia.
Qed.

Lemma fleet_loop_outcomes w inv u p sec s :
  exists os s',
    fleet_outcomes E w inv u p sec s = (inr os, s') /\
    fleet_loop E w inv u p sec s = (inr (successes os, failures os), s') /\
    length os = length (worked_on w inv) /\
    connects (trace s') =
      connects (trace s) ++
      map (fun r => make_device_params r u p sec) (worked_on w inv) /\
    length (closes (trace s')) = length (closes (trace s)) + successes os.
Proof.
  destruct inv as [rs].
  destruct w as [cfg|cfg|cfg|]; simpl fleet_outcomes; simpl fleet_loop.
  - unfold Interfaces.outcomes, Interfaces.process_routers. simpl routers.
    match goal with
    | |- exists os s', for_in _ ?b2 _ _ = _ /\ for_in _ ?b1 _ _ = _ /\ _ =>
        destruct (for_in_pair (counted (InterfaceWorkflow cfg) u p sec s) b1 b2)
          with (xs := rs) (seen := @nil router) (a1 := (0, 0)) (a2 := @nil bool) (s := s)
          as (c & os & s' & H1 & H2 & HI)
    end.
    + intros seen r [sc fc] os s1 HI. cbv zeta.
      destruct (Interfaces.router_interfaces cfg (name r)) as [|ic ics] eqn:Hri.
      * eexists _, _, _. split; [done|]. split; [done|].
        destruct HI as (-> & Hlen & Hc & Hd). split; [done|].
        simpl worked_on in *. rewrite filter_app, filter_cons_False, filter_nil, app_nil_r.
        2:{ rewrite Hri. tauto. }
        split; [done|]. simpl trace.
        split; [by rewrite connects_app, Hc, app_nil_r|].
        by rewrite closes_app, length_app, Hd, Nat.add_0_r.
      * destruct (device_workflow_step (InterfaceWorkflow cfg) r u p sec s1)
          as (b & s2 & Hd & Hc2). simpl device_workflow in Hd. rewrite Hri in Hd.
        destruct HI as (Heq & HI'). injection Heq as -> ->.
        exists (successes (os ++ [b]), failures (os ++ [b])), (os ++ [b]), s2.
        unfold bind. rewrite Hd. split.
        { rewrite successes_snoc, failures_snoc. by destruct b. }
        split; [done|]. apply counted_snoc with (s := s1); [|done|done].
        simpl. rewrite filter_app, filter_cons_True, filter_nil; [done|].
        by rewrite Hri.
    + apply counted_nil.
    + exists os, s'. destruct HI as (-> & Hlen & Hc & Hd). done.
  - unfold Vlans.outcomes, Vlans.process_routers. simpl routers.
    match goal with
    | |- exists os s', for_in _ ?b2 _ _ = _ /\ for_in _ ?b1 _ _ = _ /\ _ =>
        destruct (for_in_pair (counted (VlanWorkflow cfg) u p sec s) b1 b2)
          with (xs := rs) (seen := @nil router) (a1 := (0, 0)) (a2 := @nil bool) (s := s)
          as (c & os & s' & H1 & H2 & HI)
    end.
    + intros seen r [sc fc] os s1 HI.
      destruct (device_workflow_step (VlanWorkflow cfg) r u p sec s1)
        as (b & s2 & Hd & Hc2). simpl device_workflow in Hd.
      destruct HI as (Heq & HI'). injection Heq as -> ->.
      exists (successes (os ++ [b]), failures (os ++ [b])), (os ++ [b]), s2.
      unfold bind. rewrite Hd. split.
      { rewrite successes_snoc, failures_snoc. by destruct b. }
      split; [done|]. by apply counted_snoc with (s := s1).
    + apply counted_nil.
    + exists os, s'. destruct HI as (-> & Hlen & Hc & Hd). done.
  - unfold Routing.outcomes, Routing.process_routers. simpl routers.
    match goal with
    | |- exists os s', for_in _ ?b2 _ _ = _ /\ for_in _ ?b1 _ _ = _ /\ _ =>
        destruct (for_in_pair (counted (RoutingWorkflow cfg) u p sec s) b1 b2)
          with (xs := rs) (seen := @nil router) (a1 := (0, 0)) (a2 := @nil bool) (s := s)
          as (c & os & s' & H1 & H2 & HI)
    end.
    + intros seen r [sc fc] os s1 HI.
      destruct (device_workflow_step (RoutingWorkflow cfg) r u p sec s1)
        as (b & s2 & Hd & Hc2). simpl device_workflow in Hd.
      destruct HI as (Heq & HI'). injection Heq as -> ->.
      exists (successes (os ++ [b]), failures (os ++ [b])), (os ++ [b]), s2.
      unfold bind. rewrite Hd. split.
      { rewrite successes_snoc, failures_snoc. by destruct b. }
      split; [done|]. by apply counted_snoc with (s := s1).
    + apply counted_nil.
    + exists os, s'. destruct HI as (-> & Hlen & Hc & Hd). done.
  - unfold Backup.outcomes, Backup.process_routers. simpl routers.
    match goal with
    | |- exists os s', for_in _ ?b2 _ _ = _ /\ bind (for_in _ ?b1 _) _ _ = _ /\ _ =>
        destruct (for_in_pair
                    (fun seen (acc : nat * nat * list (string * string)) os s1 =>
                       counted BackupWorkflow u p sec s seen (acc.1.1, acc.1.2) os s1)
                    b1 b2)
          with (xs := rs) (seen := @nil router) (a1 := (0, 0, @nil (string * string)))
               (a2 := @nil bool) (s := s)
          as ([[c1 c2] sb] & os & s' & H1 & H2 & HI)
    end.
    + intros seen r [[sc fc] sb] os s1 HI.
      destruct (backup_step r u p sec "backups" s1) as (b & fn & s2 & Hd & Hc2).
      destruct HI as (Heq & HI'). injection Heq as -> ->.
      exists (if b then (S (successes os), failures os,
                         sb ++ [(name r, default "None" fn)])
              else (successes os, S (failures os), sb)), (os ++ [b]), s2.
      unfold bind. rewrite Hd. split; [by destruct b|]. split; [done|].
      pose proof (counted_snoc BackupWorkflow u p sec s seen r os s1 b s2 eq_refl) as Hs.
      rewrite successes_snoc, failures_snoc in Hs.
      destruct b; simpl; apply Hs; done.
    + apply counted_nil.
    + exists os, s'. destruct HI as (Heq & Hlen & Hc & Hdn). simpl in Heq.
      injection Heq as -> ->. by rewrite (bind_inr _ _ _ _ _ H1).
Qed.
End Fleet.

(** ** Computations that returned *)

Lemma bind_returns {A B} (m : M A) (k : A -> M B) s b s' :
  bind m k s = (inr b, s') <->
  exists a s1, m s = (inr a, s1) /\ k a s1 = (inr b, s').
Proof.
  unfold bind. destruct (m s) as [[e|a] s1]; split.
  - discriminate.
  - intros (a & s2 & H & _). discriminate.
  - eauto.
  - intros (a' & s2 & H & Hk). by simplify_eq.
Qed.

Lemma try_except_returns {A} (body : M A) (handler : exn -> M A) s a s' :
  try_except body handler s = (inr a, s') ->
  body s = (inr a, s') \/
  exists e s1, body s = (inl e, s1) /\ handler e s1 = (inr a, s').
Proof.
  unfold try_except. destruct (body s) as [[e|a'] s1]; [|by left].
  intros H. right. by exists e, s1.
Qed.

Lemma device_call_returns E d c s x s' :
  device_call E d c s = (inr x, s') ->
  answer_of E (trace s) d c = inr x /\ s' = record (Call d c (inr x)) s.
Proof.
  unfold device_call. intros H. injection H as Ha Hs. by rewrite Ha in Hs.
Qed.

Lemma logger_returns lv msg s x s' :
  logger lv msg s = (inr x, s') -> s' = record (Log lv msg) s.
Proof. by intros [= _ <-]. Qed.

Lemma datetime_now_returns E s t s' :
  datetime_now E s = (inr t, s') ->
  t = now_of E (trace s) /\ s' = record (Clock t) s.
Proof. by intros [= <- <-]. Qed.

Lemma ret_returns {A} (a b : A) s s' : ret a s = (inr b, s') -> a = b /\ s = s'.
Proof. by intros [= <- <-]. Qed.

Lemma write_file_returns path parts s x s' :
  write_file path parts s = (inr x, s') ->
  s' = {| trace := trace s; files := <[path := join parts]> (files s); dirs := dirs s |}.
Proof. by intros [= _ <-]. Qed.

Lemma ConnectHandler_returns E d s x s' :
  ConnectHandler E d s = (inr x, s') ->
  x = d /\ exists c, s' = record (Call d CConnectHandler (inr c)) s.
Proof.
  unfold ConnectHandler. intros H. apply bind_returns in H as (c & s1 & H & Hr).
  apply ret_returns in Hr as [<- <-]. apply device_call_returns in H as [_ ->]. eauto.
Qed.

Ltac step_in H :=
  let x := fresh "x" in
  let s1 := fresh "s" in
  let H1 := fresh "H" in
  apply bind_returns in H as (x & s1 & H1 & H);
  first
    [ apply logger_returns in H1
    | apply write_file_returns in H1
    | apply ConnectHandler_returns in H1 as [? [? H1]]
    | apply device_call_returns in H1 as [_ H1]
    | apply datetime_now_returns in H1 as [_ H1]
    | idtac ];
  try (subst s1).

(** ** The start and the end of a run *)




(** ** Strings *)

Lemma append_nil_r s : s +:+ EmptyString = s.
Proof. induction s as [|a s IH]; [done|]. cbv [String.append]. fold String.append. by rewrite IH. Qed.

Lemma append_assoc s1 s2 s3 : (s1 +:+ s2) +:+ s3 = s1 +:+ (s2 +:+ s3).
Proof.
  induction s1 as [|a s1 IH]; [done|].
  change (String a ((s1 +:+ s2) +:+ s3) = String a (s1 +:+ (s2 +:+ s3))). by rewrite IH.
Qed.

Lemma join_app l1 l2 : join (l1 ++ l2) = join l1 +:+ join l2.
Proof.
  induction l1 as [|p l1 IH]; [done|].
  cbn [app join]. by rewrite IH, append_assoc.
Qed.

Lemma strip_prefix_app head text : strip_prefix head (head +:+ text) = Some text.
Proof.
  induction head as [|a head IH]; [done|].
  change (String a head +:+ text) with (String a (head +:+ text)).
  cbn [strip_prefix]. by rewrite Ascii.eqb_refl.
Qed.

(** A decimal numeral never starts with a letter. *)
Lemma pretty_N_go_first x s :
  (0 < x)%N -> exists k rest, pretty_N_go x s = String (pretty_N_char k) rest.
Proof.
  revert s. induction (N.lt_wf_0 x) as [x _ IH]; intros s Hx.
  rewrite pretty_N_go_step by done.
  destruct (decide (x `div` 10 = 0)%N) as [->|Hne].
  - rewrite pretty_N_go_0. by eexists _, _.
  - apply IH; [by apply N.div_lt | by apply N.neq_0_lt_0].
Qed.

Lemma pretty_nat_first (n : nat) :
  exists k rest, pretty n = String (pretty_N_char k) rest.
Proof.
  unfold pretty, pretty_nat, pretty, pretty_N.
  destruct (decide (N.of_nat n = 0%N)).
  - by exists 0%N, EmptyString.
  - apply pretty_N_go_first. lia.
Qed.

Lemma pad4_first n : exists k rest, pad4 n = String (pretty_N_char k) rest.
Proof.
  unfold pad4. repeat case_match; try apply pretty_nat_first;
    by eexists 0%N, _.
Qed.

Lemma strftime_compact_not_latest t suffix :
  strftime_compact t +:+ suffix <> "latest" +:+ suffix.
Proof.
  unfold strftime_compact. destruct (pad4_first (year t)) as (k & rest & ->).
  intros H. injection H as Hc _. revert Hc.
  unfold pretty_N_char. by repeat case_match.
Qed.

Lemma os_path_join_shared a n x y :
  os_path_join a (n +:+ "_" +:+ x) = os_path_join a (n +:+ "_" +:+ y) -> x = y.
Proof.
  unfold os_path_join.
  assert (starts_with_slash (n +:+ "_" +:+ x) = starts_with_slash (n +:+ "_" +:+ y)) as ->.
  { by destruct n. }
  destruct (starts_with_slash (n +:+ "_" +:+ y)),
    (negb (truthy a) || ends_with_slash a); intros H;
    repeat (apply (inj (String.append _)) in H); done.
Qed.

Lemma snapshot_not_latest dir n t :
  os_path_join dir (n +:+ "_" +:+ strftime_compact t +:+ ".txt") <>
  os_path_join dir (n +:+ "_latest.txt").
Proof.
  intros H. apply (os_path_join_shared dir n _ "latest.txt") in H.
  by apply (strftime_compact_not_latest t ".txt").
Qed.

(** ** The OSPF and EIGRP command lists *)

Lemma foldl_snoc_each {A} (f : A -> string) (acc : list string) (xs : list A) :
  foldl (fun commands x => commands ++ [f x]) acc xs = acc ++ map f xs.
Proof.
  revert acc. induction xs as [|x xs IH]; intros acc; simpl.
  - by rewrite app_nil_r.
  - by rewrite IH, <- app_assoc.
Qed.

Lemma foldl_nested {A B} (inner : A -> list B) (f : A -> B -> string)
    (acc : list string) (xs : list A) :
  foldl (fun commands x =>
           foldl (fun commands y => commands ++ [f x y]) commands (inner x))
        acc xs =
  acc ++ flat_map (fun x => map (f x) (inner x)) xs.
Proof.
  revert acc. induction xs as [|x xs IH]; intros acc; simpl.
  - by rewrite app_nil_r.
  - by rewrite IH, foldl_snoc_each, <- app_assoc.
Qed.

(** ** Sessions, seen from the outcome *)

Lemma open_sessions_app tr evs :
  open_sessions (tr ++ evs) = foldl session_step (open_sessions tr) evs.
Proof. apply foldl_app. Qed.


Lemma finished_false ph : finished false ph -> ph = Refused \/ ph = Errored.
Proof. destruct ph; auto; done. Qed.

(** A device is reported as failed exactly when a call other than a command
    set raised during its workflow. *)
Lemma outcome_failure_iff E w r u p sec s b s' evs :
  device_workflow E w r u p sec s = (inr b, s') ->
  continues s s' evs ->
  b = false <-> Exists (fun e => failed_call e = true) evs.
Proof.
  intros H Hevs.
  destruct (tracks_returns _ _ _ _ s (device_workflow_session E w r u p sec))
    as (b' & s1 & evs' & ph & Hm & Hc & Hr & Hf).
  rewrite H in Hm. injection Hm as <- <-.
  unfold continues in *. rewrite Hevs in Hc. apply app_inv_head in Hc as <-.
  split.
  - intros ->. apply finished_false in Hf.
    destruct (decide (Exists (fun e => failed_call e = true) evs)) as [|Hno]; [done|].
    apply not_Exists_Forall in Hno; [|apply _].
    assert (Forall (fun e => failed_call e = false) evs) as Hall.
    { eapply Forall_impl; [exact Hno|]. simpl. intros ev ?. by destruct (failed_call ev). }
    by destruct (session_run_no_failed_call _ _ _ _ Hr Hall Hf).
  - intros Hex. destruct (session_run_failed_call _ _ _ _ Hr Hex) as [-> | ->];
      by destruct b.
Qed.

(** ** Devices without an entry *)

Lemma vlans_nothing_to_configure E r u p sec cfg s b s' evs :
  Vlans.subinterfaces_of cfg (name r) = [] ->
  Vlans.connect_and_configure E r u p sec cfg s = (inr b, s') ->
  continues s s' evs ->
  config_sets evs = [].
Proof.
  intros Hnone H Hevs. unfold Vlans.connect_and_configure in H. rewrite Hnone in H.
  cbv [try_except bind logger ConnectHandler enable disconnect device_call ret] in H.
  unfold continues in Hevs.
  repeat match type of H with
         | context [answer_of E ?tr ?d ?c] =>
             destruct (answer_of E tr d c) eqn:?; cbv beta iota in H
         end;
    injection H as <- <-; simpl in Hevs;
    rewrite <- ?app_assoc in Hevs; apply app_inv_head in Hevs as <-; done.
Qed.


(** * The claims *)

(** Missing credentials end every script with status 1 before anything is
    loaded or contacted: the claims below are about runs that got past this
    check. *)
Lemma missing_credentials_exit E w username password secret inventory s :
  credentials username password secret = None ->
  run E w username password secret inventory s =
    (inr 1%Z, record (Log ERROR "Missing credentials. Please check .env file") s).
Proof.
  intros H. destruct w; simpl;
    unfold Interfaces.main, Vlans.main, Routing.main, Backup.main; by rewrite H.
Qed.




(** C3. For every interface description, the commands [configure_interface]
    builds and submits as one command set are, in this order: the interface
    selection, the IP address assignment, the description, and last the
    admin state, which is [no shutdown] when [enabled] is true or absent and
    [shutdown] when it is false. *)
Theorem interface_commands_in_order E device ic s :
  let commands :=
    [ "interface " +:+ Interfaces.if_name ic;
      "ip address " +:+ Interfaces.ip_address ic +:+ " " +:+ Interfaces.subnet_mask ic;
      "description " +:+ Interfaces.description ic;
      match Interfaces.enabled ic with
      | Some false => "shutdown"
      | Some true | None => "no shutdown"
      end ] in
  Interfaces.interface_commands ic = commands /\
  exists answer,
    answer = answer_of E (trace s) device (CSendConfigSet commands) /\
    Interfaces.configure_interface E device ic s =
      match answer with
      | inr output =>
          (inr (true, output), record (Call device (CSendConfigSet commands) answer) s)
      | inl e =>
          (inr (false, e),
           record (Log ERROR ("Error configuring interface: " +:+ e))
             (record (Call device (CSendConfigSet commands) answer) s))
      end.
Proof.
  cbv zeta.
  assert (Interfaces.interface_commands ic =
    [ "interface " +:+ Interfaces.if_name ic;
      "ip address " +:+ Interfaces.ip_address ic +:+ " " +:+ Interfaces.subnet_mask ic;
      "description " +:+ Interfaces.description ic;
      match Interfaces.enabled ic with
      | Some false => "shutdown"
      | Some true | None => "no shutdown"
      end ]) as Hcmds.
  { unfold Interfaces.interface_commands. by destruct (Interfaces.enabled ic) as [[]|]. }
  split; [done|]. eexists. split; [done|].
  unfold Interfaces.configure_interface, try_except, bind, send_config_set, device_call.
  rewrite Hcmds. by destruct (answer_of E _ _ _).
Qed.

(** C4. For every device name and OSPF description, the commands
    [configure_ospf] builds and submits are the process entry, then a
    router-id line when [router_id_map] has a (non-empty) entry for the device
    and no such line otherwise, then one network statement per network of each
    area listed for the device, in the order of the description. In the
    scenario (one area-0 network for R1, no router id) the list is
    [router ospf <pid>] followed by [network 10.0.0.0 0.0.0.255 area 0]. *)
Theorem ospf_commands_layout E device router_name cfg s :
  let process_entry := "router ospf " +:+ str_of_int (Routing.process_id cfg) in
  let router_id_line :=
    match Routing.router_id_map cfg !! router_name with
    | Some router_id => if truthy router_id then ["router-id " +:+ router_id] else []
    | None => []
    end in
  let network_statements :=
    flat_map
      (fun area_config =>
         map (fun n => "network " +:+ Routing.network n +:+ " " +:+ Routing.wildcard n +:+
                       " area " +:+ str_of_int (Routing.area area_config))
             (Routing.networks area_config))
      (default [] (Routing.areas cfg !! router_name)) in
  Routing.ospf_commands router_name cfg =
    process_entry :: router_id_line ++ network_statements /\
  (forall pid,
     Routing.ospf_commands "R1" (ospf_scenario pid) =
       ["router ospf " +:+ str_of_int pid; "network 10.0.0.0 0.0.0.255 area 0"]) /\
  config_sets (trace (Routing.configure_ospf E device router_name cfg s).2) =
    config_sets (trace s) ++ [(device, Routing.ospf_commands router_name cfg)].
Proof.
  cbv zeta.
  assert (forall n c, Routing.ospf_commands n c =
    ("router ospf " +:+ str_of_int (Routing.process_id c)) ::
    match Routing.router_id_map c !! n with
    | Some router_id => if truthy router_id then ["router-id " +:+ router_id] else []
    | None => []
    end ++
    flat_map
      (fun area_config =>
         map (fun n => "network " +:+ Routing.network n +:+ " " +:+ Routing.wildcard n +:+
                       " area " +:+ str_of_int (Routing.area area_config))
             (Routing.networks area_config))
      (default [] (Routing.areas c !! n))) as Hlayout.
  { intros n c. unfold Routing.ospf_commands. rewrite foldl_nested.
    destruct (Routing.router_id_map c !! n) as [rid|]; [destruct (truthy rid)|]; done. }
  split; [apply Hlayout|]. split.
  - intros pid. rewrite Hlayout. simpl Routing.router_id_map. simpl Routing.areas.
    by rewrite lookup_empty, lookup_singleton_eq.
  - unfold Routing.configure_ospf, try_except, bind, send_config_set, device_call.
    destruct (answer_of E _ _ _); unfold logger, ret; simpl trace;
      rewrite <- ?app_assoc; unfold config_sets; by rewrite omap_app.
Qed.

(** C5, as the code has it. [configure_subinterface] checks nothing: for
    every subinterface description, whatever its VLAN id, it builds the five
    commands (interface selection, dot1Q encapsulation with the id as given,
    address, description, [no shutdown]) and submits them to the device. *)
Theorem subinterface_commands_any_vlan E device sc s :
  let commands :=
    [ "interface " +:+ Vlans.interface sc;
      "encapsulation dot1Q " +:+ str_of_int (Vlans.vlan sc);
      "ip address " +:+ Vlans.ip_address sc +:+ " " +:+ Vlans.subnet_mask sc;
      "description " +:+ Vlans.description sc;
      "no shutdown" ] in
  Vlans.subinterface_commands sc = commands /\
  exists answer,
    answer = answer_of E (trace s) device (CSendConfigSet commands) /\
    Vlans.configure_subinterface E device sc s =
      match answer with
      | inr output =>
          (inr (true, output), record (Call device (CSendConfigSet commands) answer) s)
      | inl e =>
          (inr (false, e),
           record (Log ERROR ("Error configuring subinterface: " +:+ e))
             (record (Call device (CSendConfigSet commands) answer) s))
      end.
Proof.
  cbv zeta. split; [done|]. eexists. split; [done|].
  unfold Vlans.configure_subinterface, try_except, bind, send_config_set, device_call.
  change (Vlans.subinterface_commands sc) with
    [ "interface " +:+ Vlans.interface sc;
      "encapsulation dot1Q " +:+ str_of_int (Vlans.vlan sc);
      "ip address " +:+ Vlans.ip_address sc +:+ " " +:+ Vlans.subnet_mask sc;
      "description " +:+ Vlans.description sc;
      "no shutdown" ].
  by destruct (answer_of E _ _ _).
Qed.

(** C5 fails on VLAN 5000: the id is outside 1..4094, yet the commands are
    generated, sent, and the configuration is reported as done. *)
Lemma vlan_out_of_range_is_sent :
  ~ (1 <= Vlans.vlan vlan5000 <= 4094)%Z /\
  let d := make_device_params R1 "admin" "pw" "en" in
  let r := Vlans.configure_subinterface calm d vlan5000 start in
  r.1 = inr (true, EmptyString) /\
  config_sets (trace r.2) =
    [(d, [ "interface GigabitEthernet0/0.5000"; "encapsulation dot1Q 5000";
           "ip address 192.168.50.1 255.255.255.0"; "description Out of range";
           "no shutdown" ])].
Proof. split; [simpl; lia|]. vm_compute. done. Qed.

(** C6, as the code has it. Only the interface workflow skips a device
    that has no entry: it opens a session to the routers with an interface
    entry and to no other, counts only those, and for a router without entry
    logs a warning and leaves both counters alone. The VLAN workflow connects
    first: a router without subinterface entry is sent no command set, and is
    recorded as a success unless one of the session calls raised. The routing
    generators have no empty case: a router without networks still gets the
    process entry (and for EIGRP [no auto-summary]). *)
Theorem devices_without_entry E inv u p sec s :
  (forall cfg,
     let with_entry :=
       filter (fun r => Interfaces.router_interfaces cfg (name r) <> []) (routers inv) in
     exists success_count fail_count s',
       Interfaces.process_routers E inv u p sec cfg s =
         (inr (success_count, fail_count), s') /\
       connects (trace s') =
         connects (trace s) ++ map (fun r => make_device_params r u p sec) with_entry /\
       success_count + fail_count = length with_entry) /\
  (forall cfg r,
     Interfaces.router_interfaces cfg (name r) = [] ->
     Interfaces.process_routers E {| routers := [r] |} u p sec cfg s =
       (inr (0, 0),
        record (Log WARNING ("No interface configuration found for " +:+ name r)) s)) /\
  (forall cfg r b s' evs,
     Vlans.subinterfaces_of cfg (name r) = [] ->
     Vlans.connect_and_configure E r u p sec cfg s = (inr b, s') ->
     continues s s' evs ->
     connects evs = [make_device_params r u p sec] /\
     config_sets evs = [] /\
     (b = true <-> ~ Exists (fun e => failed_call e = true) evs)) /\
  (forall cfg router_name,
     Routing.areas cfg !! router_name = None ->
     Routing.ospf_commands router_name cfg =
       ("router ospf " +:+ str_of_int (Routing.process_id cfg)) ::
       match Routing.router_id_map cfg !! router_name with
       | Some router_id => if truthy router_id then ["router-id " +:+ router_id] else []
       | None => []
       end) /\
  (forall cfg router_name,
     Routing.eigrp_networks cfg !! router_name = None ->
     Routing.eigrp_commands router_name cfg =
       ["router eigrp " +:+ str_of_int (Routing.as_number cfg); "no auto-summary"]).
Proof.
  split; [|split; [|split; [|split]]].
  - intros cfg. cbv zeta.
    destruct (fleet_loop_outcomes E (InterfaceWorkflow cfg) inv u p sec s)
      as (os & s' & _ & Hl & Hlen & Hc & _).
    exists (successes os), (failures os), s'. split; [done|]. split; [done|].
    by rewrite successes_failures.
  - intros cfg r Hnone. unfold Interfaces.process_routers. simpl. by rewrite Hnone.
  - intros cfg r b s' evs Hnone H Hevs. split; [|split].
    + destruct (device_workflow_step E (VlanWorkflow cfg) r u p sec s)
        as (b' & s1 & Hd & Hc & _).
      simpl in Hd. rewrite H in Hd. injection Hd as <- <-.
      unfold continues in Hevs. rewrite Hevs, connects_app in Hc.
      by apply app_inv_head in Hc.
    + by eapply vlans_nothing_to_configure.
    + pose proof (outcome_failure_iff E (VlanWorkflow cfg) r u p sec s b s' evs H Hevs)
        as Hiff.
      destruct b; split; try done.
      * intros _ Hex. by apply Hiff in Hex.
      * intros Hno. destruct Hno. by apply Hiff.
  - intros cfg n Hnone. unfold Routing.ospf_commands. rewrite Hnone. simpl.
    destruct (Routing.router_id_map cfg !! n) as [rid|]; [destruct (truthy rid)|]; done.
  - intros cfg n Hnone. unfold Routing.eigrp_commands. by rewrite Hnone.
Qed.

(** R1 has no entry in any of the descriptions used here. *)
Lemma devices_without_entry_witness :
  let d := make_device_params R1 "admin" "pw" "en" in
  let visit := Vlans.connect_and_configure calm R1 "admin" "pw" "en" no_subinterfaces start in
  (Interfaces.router_interfaces ∅ (name R1) = [] /\
   Interfaces.process_routers calm {| routers := [R1] |} "admin" "pw" "en" ∅ start =
     (inr (0, 0),
      record (Log WARNING ("No interface configuration found for " +:+ name R1)) start)) /\
  (Vlans.subinterfaces_of no_subinterfaces (name R1) = [] /\
   visit = (inr true, visit.2) /\
   continues start visit.2 (trace visit.2) /\
   connects (trace visit.2) = [d] /\
   config_sets (trace visit.2) = [] /\
   (true = true <-> ~ Exists (fun e => failed_call e = true) (trace visit.2))) /\
  (Routing.areas (ospf_scenario 1) !! "R2" = None /\
   Routing.ospf_commands "R2" (ospf_scenario 1) =
     ("router ospf " +:+ str_of_int (Routing.process_id (ospf_scenario 1))) ::
     match Routing.router_id_map (ospf_scenario 1) !! "R2" with
     | Some router_id => if truthy router_id then ["router-id " +:+ router_id] else []
     | None => []
     end) /\
  (Routing.eigrp_networks eigrp_sample !! "R2" = None /\
   Routing.eigrp_commands "R2" eigrp_sample =
     ["router eigrp " +:+ str_of_int (Routing.as_number eigrp_sample); "no auto-summary"]).
Proof.
  intros d visit.
  destruct (devices_without_entry calm {| routers := [R1] |} "admin" "pw" "en" start)
    as (_ & Hskip & Hvlan & Hospf & Heigrp).
  split; [split; [reflexivity | apply Hskip; reflexivity]|].
  split.
  { split; [reflexivity|]. split; [vm_compute; reflexivity|].
    split; [reflexivity|].
    apply (Hvlan no_subinterfaces R1 true visit.2 (trace visit.2));
      [reflexivity | vm_compute; reflexivity | reflexivity]. }
  split; [split; [reflexivity | apply Hospf; reflexivity]|].
  split; [reflexivity | apply Heigrp; reflexivity].
Defined.

(** C6 fails in the VLAN workflow: R1 has no subinterface entry, its
    connection is refused, and the run counts one failure and exits with
    status 1. It fails in the routing workflow too: R2 has no area, and its
    OSPF command list is not empty. *)
Lemma device_without_entry_counted_as_failure :
  Vlans.subinterfaces_of no_subinterfaces (name R1) = [] /\
  (Vlans.process_routers connection_fails {| routers := [R1] |} "admin" "pw" "en"
     no_subinterfaces start).1 = inr (0, 1) /\
  (Vlans.main connection_fails (Some "admin") (Some "pw") (Some "en")
     {| routers := [R1] |} no_subinterfaces start).1 = inr 1%Z /\
  Routing.areas (ospf_scenario 1) !! "R2" = None /\
  Routing.ospf_commands "R2" (ospf_scenario 1) = ["router ospf 1"].
Proof.
  split; [done|]. split; [by vm_compute|]. split; [by vm_compute|].
  split; [done|]. by vm_compute.
Qed.

(** C7. Backup round trip: whenever [backup_router_config] succeeds, the
    device returned a configuration text in answer to [show running-config];
    the time-stamped artifact and the latest artifact both consist of the
    seven header lines (backup date, router name, address, version line and
    separator) followed by that text unchanged, so that removing the header
    gives the text back; and this holds whatever the latest artifact held
    before. The two headers carry the clock readings taken when each file is
    written. *)
Theorem backup_round_trip E r u p sec dir s fn s' :
  Backup.backup_router_config E r u p sec dir s = (inr (true, fn), s') ->
  exists config_text version_info t0 t1 t2 snapshot latest,
    (exists c0 c1 hostname c2,
       let d := make_device_params r u p sec in
       let filename := name r +:+ "_" +:+ strftime_compact t0 +:+ ".txt" in
       trace s' = trace s ++
         [ Log INFO ("Connecting to " +:+ name r +:+ " (" +:+ ip r +:+ ")...");
           Call d CConnectHandler (inr c0);
           Call d CEnable (inr c1);
           Call d (CSendCommand "show running-config") (inr config_text);
           Call d (CSendCommand "show version | include Version") (inr version_info);
           Call d (CSendCommand "show run | include hostname") (inr hostname);
           Clock t0; Clock t1; Clock t2;
           Call d CDisconnect (inr c2);
           Log INFO ("Successfully backed up " +:+ name r +:+ " to " +:+ filename) ]) /\
    fn = Some (name r +:+ "_" +:+ strftime_compact t0 +:+ ".txt") /\
    files s' !! os_path_join dir (name r +:+ "_" +:+ strftime_compact t0 +:+ ".txt")
      = Some snapshot /\
    files s' !! os_path_join dir (name r +:+ "_latest.txt") = Some latest /\
    snapshot =
      join (Backup.header (strftime_iso t1) (name r) (ip r) version_info) +:+ config_text /\
    latest =
      join (Backup.header (strftime_iso t2) (name r) (ip r) version_info) +:+ config_text /\
    artifact_body (strftime_iso t1) (name r) (ip r) version_info snapshot
      = Some config_text /\
    artifact_body (strftime_iso t2) (name r) (ip r) version_info latest
      = Some config_text.
Proof.
  intros H. unfold Backup.backup_router_config in H.
  apply try_except_returns in H as [H|(e & s1 & _ & H)].
  2:{ apply bind_returns in H as (x & s2 & _ & H). by apply ret_returns in H as [? _]. }
  unfold enable, send_command, disconnect in H.
  do 13 step_in H. apply ret_returns in H as [Hfn <-].
  injection Hfn as <-. subst.
  assert (forall hd, join (hd ++ [x3]) = join hd +:+ x3) as Hjoin.
  { intros hd. rewrite join_app. cbn [join]. by rewrite append_nil_r. }
  rewrite !Hjoin.
  exists x3, x4, x6, x7, x9. eexists _, _.
  split.
  { exists x1, x2, x5, x11. cbv zeta. simpl trace. by rewrite <- !app_assoc. }
  split; [done|]. simpl files.
  split; [rewrite lookup_insert_ne by (symmetry; apply snapshot_not_latest);
          apply lookup_insert_eq|].
  split; [apply lookup_insert_eq|].
  split; [done|]. split; [done|].
  split; apply strip_prefix_app.
Qed.

(** A backup of R1 into a directory that already holds a latest artifact. *)
Lemma backup_round_trip_witness :
  let run := Backup.backup_router_config calm R1 "admin" "pw" "en" "backups"
               after_a_first_backup in
  run = (inr (true, Some "R1_20240309_123005.txt"), run.2) /\
  files after_a_first_backup !! "backups/R1_latest.txt" = Some "! stale" /\
  exists config_text version_info t0 t1 t2 snapshot latest,
    (exists c0 c1 hostname c2,
       let d := make_device_params R1 "admin" "pw" "en" in
       let filename := name R1 +:+ "_" +:+ strftime_compact t0 +:+ ".txt" in
       trace run.2 = trace after_a_first_backup ++
         [ Log INFO ("Connecting to " +:+ name R1 +:+ " (" +:+ ip R1 +:+ ")...");
           Call d CConnectHandler (inr c0);
           Call d CEnable (inr c1);
           Call d (CSendCommand "show running-config") (inr config_text);
           Call d (CSendCommand "show version | include Version") (inr version_info);
           Call d (CSendCommand "show run | include hostname") (inr hostname);
           Clock t0; Clock t1; Clock t2;
           Call d CDisconnect (inr c2);
           Log INFO ("Successfully backed up " +:+ name R1 +:+ " to " +:+ filename) ]) /\
    Some "R1_20240309_123005.txt" =
      Some (name R1 +:+ "_" +:+ strftime_compact t0 +:+ ".txt") /\
    files run.2 !! os_path_join "backups" (name R1 +:+ "_" +:+ strftime_compact t0 +:+ ".txt")
      = Some snapshot /\
    files run.2 !! os_path_join "backups" (name R1 +:+ "_latest.txt") = Some latest /\
    snapshot =
      join (Backup.header (strftime_iso t1) (name R1) (ip R1) version_info) +:+ config_text /\
    latest =
      join (Backup.header (strftime_iso t2) (name R1) (ip R1) version_info) +:+ config_text /\
    artifact_body (strftime_iso t1) (name R1) (ip R1) version_info snapshot
      = Some config_text /\
    artifact_body (strftime_iso t2) (name R1) (ip R1) version_info latest
      = Some config_text.
Proof.
  cbv zeta.
  assert (Backup.backup_router_config calm R1 "admin" "pw" "en" "backups"
            after_a_first_backup =
          (inr (true, Some "R1_20240309_123005.txt"),
           (Backup.backup_router_config calm R1 "admin" "pw" "en" "backups"
              after_a_first_backup).2)) as Hrun.
  { vm_compute. reflexivity. }
  split; [exact Hrun|]. split; [vm_compute; reflexivity|].
  exact (backup_round_trip calm R1 "admin" "pw" "en" "backups" after_a_first_backup
           (Some "R1_20240309_123005.txt") _ Hrun).
Defined.




(** C9, as the code has it. The device is recorded as failed exactly when
    some call other than a command set raised during its workflow; in
    particular a verification command that raises makes the outcome a
    failure. *)
Theorem failed_verification_fails_device E w r u p sec s b s' evs :
  device_workflow E w r u p sec s = (inr b, s') ->
  continues s s' evs ->
  (b = false <-> Exists (fun e => failed_call e = true) evs) /\
  (forall command e,
     verification_command w = Some command ->
     In (Call (make_device_params r u p sec) (CSendCommand command) (inl e)) evs ->
     b = false).
Proof.
  intros H Hevs. pose proof (outcome_failure_iff _ _ _ _ _ _ _ _ _ _ H Hevs) as Hiff.
  split; [done|].
  intros command e _ Hin. apply Hiff, Exists_exists.
  eexists. split; [by apply list_elem_of_In|done].
Qed.

(** The routing workflow on R1, in a world where [show ip route] raises. *)
Lemma failed_verification_fails_device_witness :
  let visit := device_workflow verification_fails (RoutingWorkflow ospf_only) R1
                 "admin" "pw" "en" start in
  visit = (inr false, visit.2) /\
  continues start visit.2 (trace visit.2) /\
  (false = false <-> Exists (fun e => failed_call e = true) (trace visit.2)) /\
  (forall command e,
     verification_command (RoutingWorkflow ospf_only) = Some command ->
     In (Call (make_device_params R1 "admin" "pw" "en") (CSendCommand command) (inl e))
        (trace visit.2) ->
     false = false).
Proof.
  cbv zeta.
  assert (device_workflow verification_fails (RoutingWorkflow ospf_only) R1
            "admin" "pw" "en" start =
          (inr false,
           (device_workflow verification_fails (RoutingWorkflow ospf_only) R1
              "admin" "pw" "en" start).2)) as Hrun.
  { vm_compute. reflexivity. }
  split; [exact Hrun|]. split; [reflexivity|].
  exact (failed_verification_fails_device verification_fails (RoutingWorkflow ospf_only)
           R1 "admin" "pw" "en" start false _ _ Hrun eq_refl).
Defined.

(** C9 fails on R1: in two worlds that differ only in the answer to
    [show ip route], the device is recorded as a success where the command
    returns and as a failure where it raises. *)
Lemma verification_failure_changes_outcome :
  (Routing.connect_and_configure calm R1 "admin" "pw" "en" ospf_only start).1 = inr true /\
  (Routing.connect_and_configure verification_fails R1 "admin" "pw" "en" ospf_only start).1
    = inr false /\
  forall tr d c,
    c <> CSendCommand "show ip route" ->
    answer_of verification_fails tr d c = answer_of calm tr d c.
Proof.
  split; [by vm_compute|]. split; [by vm_compute|].
  intros tr d c Hc. unfold verification_fails, failing. simpl.
  destruct c as [| | |command|]; try done.
  destruct (String.eqb_spec command "show ip route") as [->|]; done.
Qed.

(** C10. In the routing workflow, once the credentials are there, if
    neither OSPF nor EIGRP is enabled the run ends with status 0 and all it
    did is log one warning: no session is opened, no device is called. *)
Theorem routing_nothing_enabled E username password secret inventory cfg u p sec s :
  credentials username password secret = Some (u, p, sec) ->
  Routing.is_ospf_enabled cfg = false ->
  Routing.is_eigrp_enabled cfg = false ->
  Routing.main E username password secret inventory cfg s =
    (inr 0%Z, record (Log WARNING "No routing protocol is enabled in configuration") s).
Proof.
  intros Hcred Ho He. unfold Routing.main. by rewrite Hcred, Ho, He.
Qed.

(** A fleet of two routers and a routing description with OSPF switched off
    and no EIGRP section, in a world where no connection would succeed. *)
Lemma routing_nothing_enabled_witness :
  credentials (Some "admin") (Some "pw") (Some "en") = Some ("admin", "pw", "en") /\
  Routing.is_ospf_enabled routing_off = false /\
  Routing.is_eigrp_enabled routing_off = false /\
  Routing.main connection_fails (Some "admin") (Some "pw") (Some "en")
    {| routers := [R1; R2] |} routing_off start =
    (inr 0%Z,
     record (Log WARNING "No routing protocol is enabled in configuration") start).
Proof.
  split; [reflexivity|]. split; [reflexivity|]. split; [reflexivity|].
  apply (routing_nothing_enabled connection_fails (Some "admin") (Some "pw") (Some "en")
           {| routers := [R1; R2] |} routing_off "admin" "pw" "en" start);
    reflexivity.
Defined.

(** * Further properties of the scripts *)

(** ** Computations, step by step *)

Lemma bind_raises {A B} (m : M A) (k : A -> M B) s e s' :
  bind m k s = (inl e, s') ->
  m s = (inl e, s') \/ exists a s1, m s = (inr a, s1) /\ k a s1 = (inl e, s').
Proof.
  unfold bind. destruct (m s) as [[e'|a] s1]; intros H; [injection H as -> ->; by left|].
  right. by exists a, s1.
Qed.

Lemma try_except_raises {A} (body : M A) (handler : exn -> M A) s e s' :
  try_except body handler s = (inl e, s') ->
  exists e1 s1, body s = (inl e1, s1) /\ handler e1 s1 = (inl e, s').
Proof.
  unfold try_except. destruct (body s) as [[e'|a] s1]; [|done].
  intros H. by exists e', s1.
Qed.

Lemma device_call_raises E d c s e s' :
  device_call E d c s = (inl e, s') ->
  answer_of E (trace s) d c = inl e /\ s' = record (Call d c (inl e)) s.
Proof.
  unfold device_call. intros H. injection H as Ha Hs. by rewrite Ha in Hs.
Qed.

Lemma ConnectHandler_raises E d s e s' :
  ConnectHandler E d s = (inl e, s') ->
  answer_of E (trace s) d CConnectHandler = inl e /\
  s' = record (Call d CConnectHandler (inl e)) s.
Proof.
  unfold ConnectHandler. intros H. apply bind_raises in H as [H|(a & s1 & _ & H)]; [|done].
  by apply device_call_raises.
Qed.

Lemma ConnectHandler_returned E d s x s' :
  ConnectHandler E d s = (inr x, s') ->
  x = d /\ exists c, answer_of E (trace s) d CConnectHandler = inr c /\
                     s' = record (Call d CConnectHandler (inr c)) s.
Proof.
  unfold ConnectHandler. intros H. apply bind_returns in H as (c & s1 & H & Hr).
  apply ret_returns in Hr as [<- <-]. apply device_call_returns in H as [? ->]. eauto.
Qed.

(** Take a computation that ended apart, one step at a time. *)
Ltac unwind_step :=
  match goal with
  | H : bind _ _ _ = (inr _, _) |- _ =>
      let x := fresh "x" in let s1 := fresh "s" in let H1 := fresh "Hstep" in
      apply bind_returns in H as (x & s1 & H1 & H); cbv beta in H
  | H : bind _ _ _ = (inl _, _) |- _ =>
      let x := fresh "x" in let s1 := fresh "s" in let H1 := fresh "Hstep" in
      apply bind_raises in H as [H|(x & s1 & H1 & H)]; [|cbv beta in H]
  | H : try_except _ _ _ = (inr _, _) |- _ =>
      let e := fresh "e" in let s1 := fresh "s" in let H1 := fresh "Hbody" in
      apply try_except_returns in H as [H|(e & s1 & H1 & H)]; [|cbv beta in H]
  | H : try_except _ _ _ = (inl _, _) |- _ =>
      let e := fresh "e" in let s1 := fresh "s" in let H1 := fresh "Hbody" in
      apply try_except_raises in H as (e & s1 & H1 & H); cbv beta in H
  | H : logger _ _ _ = (inr _, _) |- _ => apply logger_returns in H; subst
  | H : logger _ _ _ = (inl _, _) |- _ => discriminate H
  | H : ret _ _ = (inr _, _) |- _ => apply ret_returns in H as [? ?]; simplify_eq
  | H : ret _ _ = (inl _, _) |- _ => discriminate H
  | H : write_file _ _ _ = (inr _, _) |- _ => apply write_file_returns in H; subst
  | H : write_file _ _ _ = (inl _, _) |- _ => discriminate H
  | H : datetime_now _ _ = (inr _, _) |- _ =>
      apply datetime_now_returns in H as [_ H]; subst
  | H : datetime_now _ _ = (inl _, _) |- _ => discriminate H
  | H : ConnectHandler _ _ _ = (inr _, _) |- _ =>
      let c := fresh "c" in let Ha := fresh "Hanswer" in
      apply ConnectHandler_returned in H as [? (c & Ha & H)]; subst
  | H : ConnectHandler _ _ _ = (inl _, _) |- _ =>
      let Ha := fresh "Hanswer" in
      apply ConnectHandler_raises in H as [Ha H]; subst
  | H : enable _ _ _ = _ |- _ => unfold enable in H
  | H : send_command _ _ _ _ = _ |- _ => unfold send_command in H
  | H : send_config_set _ _ _ _ = _ |- _ => unfold send_config_set in H
  | H : disconnect _ _ _ = _ |- _ => unfold disconnect in H
  | H : device_call _ _ _ _ = (inr _, _) |- _ =>
      let Ha := fresh "Hanswer" in
      apply device_call_returns in H as [Ha H]; subst
  | H : device_call _ _ _ _ = (inl _, _) |- _ =>
      let Ha := fresh "Hanswer" in
      apply device_call_raises in H as [Ha H]; subst
  | H : (let (_, _) := ?x in _) _ = _ |- _ => destruct x
  | H : (if ?b then _ else _) _ = _ |- _ => destruct b eqn:?
  | H : (match ?x with inl _ => _ | inr _ => _ end) _ = _ |- _ => destruct x
  | H : (match ?x with Some _ => _ | None => _ end) _ = _ |- _ => destruct x eqn:?
  | H : (match ?x with [] => _ | _ :: _ => _ end) _ = _ |- _ => destruct x eqn:?
  end.

(** Take it apart to the end. *)
Ltac unwind := repeat unwind_step.

Lemma config_sets_app evs1 evs2 :
  config_sets (evs1 ++ evs2) = config_sets evs1 ++ config_sets evs2.
Proof. apply omap_app. Qed.

Lemma privileged_app evs1 evs2 :
  privileged (evs1 ++ evs2) = privileged evs1 || privileged evs2.
Proof. apply existsb_app. Qed.

Lemma configuring_not_privileged evs :
  Forall (fun e => configuring e = true) evs -> privileged evs = false.
Proof.
  induction 1 as [|e evs He _ IH]; [done|].
  unfold privileged in *. simpl. rewrite IH. by destruct e as [? [] [] | |].
Qed.

(** A loop of [configure_*] steps submits one command set per item, in order,
    and never raises. *)
Lemma for_in_configures {A} d (commands_of : A -> list string)
    (body : A -> unit -> M unit) :
  (forall x s, exists s' evs,
      body x tt s = (inr tt, s') /\ continues s s' evs /\
      store_untouched s s' /\
      config_sets evs = [(d, commands_of x)] /\
      Forall (fun e => configuring e = true) evs) ->
  forall xs s, exists s' evs,
    for_in xs body tt s = (inr tt, s') /\ continues s s' evs /\
    store_untouched s s' /\
    config_sets evs = map (fun x => (d, commands_of x)) xs /\
    Forall (fun e => configuring e = true) evs.
Proof.
  intros Hbody. induction xs as [|x xs IH]; intros s; simpl.
  - exists s, []. split; [done|]. split; [apply continues_refl|]. done.
  - destruct (Hbody x s) as (s1 & evs1 & H1 & Hc1 & [Hf1 Hd1] & Hs1 & Hq1).
    destruct (IH s1) as (s2 & evs2 & H2 & Hc2 & [Hf2 Hd2] & Hs2 & Hq2).
    exists s2, (evs1 ++ evs2). rewrite (bind_inr _ _ _ _ _ H1), H2.
    split; [done|]. split; [by eapply continues_trans|].
    split; [split; congruence|].
    split; [by rewrite config_sets_app, Hs1, Hs2|]. by apply Forall_app.
Qed.

(** ** The command sets of a session *)

(** One [configure_*] step of a loop, whatever the device answers. *)
Ltac item_of :=
  let x := fresh "x" in
  let s0 := fresh "s" in
  intros x s0;
  unfold Interfaces.configure_interface, Vlans.configure_subinterface,
    try_except, bind, send_config_set, device_call, logger, ret;
  match goal with
  | |- context [answer_of ?E0 (trace ?s1) ?d0 ?c0] =>
      destruct (answer_of E0 (trace s1) d0 c0)
  end;
  eexists _, _; (split; [reflexivity|]);
  (split; [unfold continues; simpl; rewrite <- ?app_assoc; reflexivity|]);
  (split; [done|]);
  (split; [reflexivity | simpl; repeat constructor]).

(** Use what is known of a loop of [configure_*] steps in [H]. *)
Ltac loop_in H d f :=
  lazymatch type of H with
  | for_in ?xs ?body tt ?s0 = _ =>
      let Hitem := fresh "Hitem" in
      let sL := fresh "s" in
      let evsL := fresh "evs" in
      let Heq := fresh "Hloop" in
      let Hc := fresh "Hcont" in
      let Hst := fresh "Hstore" in
      let Hcs := fresh "Hsets" in
      let Hq := fresh "Hquiet" in
      assert (forall x1 s1, exists s2 evs2,
                 body x1 tt s1 = (inr tt, s2) /\ continues s1 s2 evs2 /\
                 store_untouched s1 s2 /\
                 config_sets evs2 = [(d, f x1)] /\
                 Forall (fun e => configuring e = true) evs2) as Hitem
        by item_of;
      destruct (for_in_configures d f body Hitem xs s0)
        as (sL & evsL & Heq & Hc & Hst & Hcs & Hq);
      rewrite Heq in H; clear Hitem Heq
  end.

(** Read the events of a run off the final state. *)
Ltac events_of Hevs :=
  unfold continues in *; cbn [trace record] in Hevs;
  repeat match goal with
         | Hc : trace ?s3 = _ ++ _ |- _ =>
             lazymatch type of Hevs with
             | context [trace s3] => rewrite Hc in Hevs; cbn [trace record] in Hevs
             end
         end;
  rewrite <- ?app_assoc in Hevs; apply app_inv_head in Hevs; subst.

Section Submitted.
Variable E : env.

(** The command sets of one session: all of them once [enable] returned,
    none before. *)
Lemma interfaces_all_submitted r u p sec ics s b s' evs :
  Interfaces.connect_and_configure E r u p sec ics s = (inr b, s') ->
  continues s s' evs ->
  config_sets evs =
    if privileged evs
    then map (fun ic => (make_device_params r u p sec, Interfaces.interface_commands ic)) ics
    else [].
Proof.
  intros H Hevs. unfold Interfaces.connect_and_configure in H.
  set (d := make_device_params r u p sec) in *.
  unwind.
  all: try match goal with
       | Hl : for_in _ _ _ _ = _ |- _ =>
           loop_in Hl d Interfaces.interface_commands; simplify_eq
       end.
  all: events_of Hevs.
  all: rewrite ?config_sets_app, ?privileged_app, ?Hsets,
         ?(configuring_not_privileged _ Hquiet); try reflexivity.
  all: by rewrite app_nil_r.
Qed.

Lemma vlans_all_submitted r u p sec cfg s b s' evs :
  Vlans.connect_and_configure E r u p sec cfg s = (inr b, s') ->
  continues s s' evs ->
  config_sets evs =
    if privileged evs
    then map (fun sc => (make_device_params r u p sec, Vlans.subinterface_commands sc))
             (Vlans.subinterfaces_of cfg (name r))
    else [].
Proof.
  intros H Hevs. unfold Vlans.connect_and_configure in H.
  set (d := make_device_params r u p sec) in *.
  unwind.
  all: try match goal with
       | Hl : for_in _ _ _ _ = _ |- _ =>
           loop_in Hl d Vlans.subinterface_commands; simplify_eq
       end.
  all: events_of Hevs.
  all: rewrite ?config_sets_app, ?privileged_app, ?Hsets,
         ?(configuring_not_privileged _ Hquiet); try reflexivity.
  all: by rewrite app_nil_r.
Qed.

Lemma routing_all_submitted r u p sec cfg s b s' evs :
  Routing.connect_and_configure E r u p sec cfg s = (inr b, s') ->
  continues s s' evs ->
  config_sets evs =
    if privileged evs
    then map (pair (make_device_params r u p sec))
             (own_command_sets (RoutingWorkflow cfg) r)
    else [].
Proof.
  intros H Hevs. unfold Routing.connect_and_configure in H.
  set (d := make_device_params r u p sec) in *.
  unfold own_command_sets.
  unfold Routing.configure_ospf, Routing.configure_eigrp in H.
  unwind.
  all: events_of Hevs.
  all: reflexivity.
Qed.

Lemma backup_none_submitted r u p sec dir s b s' evs :
  Backup.backup_router_config E r u p sec dir s = (inr b, s') ->
  continues s s' evs ->
  config_sets evs = [].
Proof.
  intros H Hevs. unfold Backup.backup_router_config in H.
  set (d := make_device_params r u p sec) in *.
  unwind.
  all: events_of Hevs.
  all: reflexivity.
Qed.

Lemma device_workflow_submits w r u p sec s b s' evs :
  device_workflow E w r u p sec s = (inr b, s') ->
  continues s s' evs ->
  config_sets evs =
    if privileged evs
    then map (pair (make_device_params r u p sec)) (own_command_sets w r)
    else [].
Proof.
  intros H Hevs. destruct w as [cfg|cfg|cfg|]; simpl in H.
  - rewrite (interfaces_all_submitted _ _ _ _ _ _ _ _ _ H Hevs).
    simpl. by rewrite map_map.
  - rewrite (vlans_all_submitted _ _ _ _ _ _ _ _ _ H Hevs).
    simpl. by rewrite map_map.
  - by apply routing_all_submitted with s b s'.
  - apply bind_returns in H as ([ok fn] & s1 & H & Hr).
    apply ret_returns in Hr as [<- <-].
    rewrite (backup_none_submitted _ _ _ _ _ _ _ _ _ H Hevs). simpl.
    by destruct (privileged evs).
Qed.
End Submitted.

(** ** How a failed session ends *)





(** ** How a successful session ends *)

(** The last events of a session, found from the left. *)
Ltac at_the_end :=
  repeat first [ exact (reflexivity _) | apply suffix_app_r ].

Section Success.
Variable E : env.

Lemma device_workflow_success_privileged w r u p sec s s' evs :
  device_workflow E w r u p sec s = (inr true, s') ->
  continues s s' evs ->
  privileged evs = true.
Proof.
  intros H Hevs. set (d := make_device_params r u p sec) in *.
  destruct w as [cfg|cfg|cfg|]; simpl in H.
  - unfold Interfaces.connect_and_configure in H. fold d in H. unwind.
    all: try match goal with
         | Hl : for_in _ _ _ _ = _ |- _ =>
             loop_in Hl d Interfaces.interface_commands; simplify_eq
         end.
    all: events_of Hevs; reflexivity.
  - unfold Vlans.connect_and_configure in H. fold d in H. unwind.
    all: try match goal with
         | Hl : for_in _ _ _ _ = _ |- _ =>
             loop_in Hl d Vlans.subinterface_commands; simplify_eq
         end.
    all: events_of Hevs; reflexivity.
  - unfold Routing.connect_and_configure, Routing.configure_ospf,
      Routing.configure_eigrp in H. fold d in H. unwind.
    all: events_of Hevs; reflexivity.
  - apply bind_returns in H as ([ok fn] & s1 & H & Hr).
    apply ret_returns in Hr as [-> <-].
    unfold Backup.backup_router_config in H. fold d in H. unwind.
    all: events_of Hevs; reflexivity.
Qed.
End Success.

(** ** What a computation keeps *)

Section Keeping.
Variable R : state -> state -> Prop.
Hypothesis R_refl : forall s, R s s.
Hypothesis R_trans : forall s1 s2 s3, R s1 s2 -> R s2 s3 -> R s1 s3.

Lemma keeps_ret {A} (a : A) : keeps R (ret a).
Proof. intros s. apply R_refl. Qed.

Lemma keeps_bind {A B} (m : M A) (k : A -> M B) :
  keeps R m -> (forall a, keeps R (k a)) -> keeps R (bind m k).
Proof.
  intros Hm Hk s. unfold bind. specialize (Hm s).
  destruct (m s) as [[e|a] s1]; [done|]. eapply R_trans; [exact Hm|apply Hk].
Qed.

Lemma keeps_try_except {A} (body : M A) (handler : exn -> M A) :
  keeps R body -> (forall e, keeps R (handler e)) -> keeps R (try_except body handler).
Proof.
  intros Hm Hk s. unfold try_except. specialize (Hm s).
  destruct (body s) as [[e|a] s1]; [|done]. eapply R_trans; [exact Hm|apply Hk].
Qed.

Lemma keeps_for_in {A S} (xs : list A) (body : A -> S -> M S) :
  (forall x acc, x ∈ xs -> keeps R (body x acc)) ->
  forall acc, keeps R (for_in xs body acc).
Proof.
  induction xs as [|x xs IH]; intros Hbody acc; simpl.
  - apply keeps_ret.
  - apply keeps_bind; [apply Hbody; left|].
    intros acc'. apply IH. intros y acc'' Hy. apply Hbody. by right.
Qed.
End Keeping.

Section Confined.
Variable P : event -> Prop.
Variables W D : string -> Prop.

Lemma confined_refl s : confined P W D s s.
Proof.
  split; [exists []; split; [apply continues_refl|done]|].
  split; [done|]. split; [done|]. by left.
Qed.

Lemma confined_trans s1 s2 s3 :
  confined P W D s1 s2 -> confined P W D s2 s3 -> confined P W D s1 s3.
Proof.
  intros ((evs1 & Hc1 & Hp1) & Hf1 & Hd1 & Hn1) ((evs2 & Hc2 & Hp2) & Hf2 & Hd2 & Hn2).
  split; [exists (evs1 ++ evs2); split; [by eapply continues_trans|by apply Forall_app]|].
  split; [|split].
  - intros path Hne.
    destruct (decide (files s3 !! path = files s2 !! path)) as [Heq|Hne2].
    + rewrite Heq in *. by apply Hf1.
    + by apply Hf2.
  - intros dir Hin. by apply Hd2, Hd1.
  - intros dir Hin. destruct (Hn2 dir Hin) as [Hin2|]; [by apply Hn1|by right].
Qed.

Lemma confined_record e s : P e -> confined P W D s (record e s).
Proof.
  intros He. split; [exists [e]; split; [done|by constructor]|].
  split; [done|]. split; [done|]. by left.
Qed.

Lemma keeps_logger lv msg : P (Log lv msg) -> keeps (confined P W D) (logger lv msg).
Proof. intros He s. by apply confined_record. Qed.

Lemma keeps_device_call E d c :
  (forall a, P (Call d c a)) -> keeps (confined P W D) (device_call E d c).
Proof. intros He s. by apply confined_record. Qed.

Lemma keeps_connected {B} E d (k : device_params -> M B) :
  (forall a, P (Call d CConnectHandler a)) ->
  keeps (confined P W D) (k d) ->
  keeps (confined P W D) (bind (ConnectHandler E d) k).
Proof.
  intros He Hk s. cbv [bind ConnectHandler device_call ret].
  destruct (answer_of E (trace s) d CConnectHandler) as [e|c]; simpl.
  - by apply confined_record.
  - eapply confined_trans; [by apply confined_record|apply Hk].
Qed.

Lemma keeps_datetime_now E :
  (forall t, P (Clock t)) -> keeps (confined P W D) (datetime_now E).
Proof. intros He s. by apply confined_record. Qed.

Lemma keeps_write_file path parts :
  W path -> keeps (confined P W D) (write_file path parts).
Proof.
  intros Hw s. split; [exists []; split; [unfold continues; simpl; by rewrite app_nil_r|done]|].
  split; [|split; [done|by left]].
  simpl. intros path' Hne. destruct (decide (path = path')) as [<-|Hp].
  - split; [done|]. by rewrite lookup_insert_eq.
  - by rewrite lookup_insert_ne in Hne.
Qed.

Lemma keeps_os_path_exists path : keeps (confined P W D) (os_path_exists path).
Proof. intros s. apply confined_refl. Qed.

Lemma keeps_os_makedirs path : D path -> keeps (confined P W D) (os_makedirs path).
Proof.
  intros Hd s. split; [exists []; split; [unfold continues; simpl; by rewrite app_nil_r|done]|].
  split; [done|]. simpl. split; [set_solver|].
  intros dir [->%elem_of_singleton|]%elem_of_union; auto.
Qed.
End Confined.


Lemma confined_weaken (P P' : event -> Prop) (W W' D D' : string -> Prop) s s' :
  (forall e, P e -> P' e) -> (forall x, W x -> W' x) -> (forall x, D x -> D' x) ->
  confined P W D s s' -> confined P' W' D' s s'.
Proof.
  intros HP HW HD ((evs & Hc & Hp) & Hf & Hd & Hn).
  split; [exists evs; split; [done|by eapply Forall_impl]|].
  split; [intros path Hne; destruct (Hf path Hne); auto|].
  split; [done|]. intros dir Hin. destruct (Hn dir Hin); auto.
Qed.

(** Follow a computation, leaving what has to hold of each of its events and
    of the paths it writes; [known] closes the parts already dealt with. *)
Ltac keep_with known :=
  repeat first
    [ known
    | apply keeps_ret; apply confined_refl
    | apply keeps_connected
    | apply keeps_bind; [apply confined_trans| |intros ?]
    | apply keeps_try_except; [apply confined_trans| |intros ?]
    | apply keeps_logger
    | apply keeps_device_call
    | apply keeps_datetime_now
    | apply keeps_write_file
    | apply keeps_os_path_exists
    | apply keeps_os_makedirs
    | apply keeps_for_in; [apply confined_refl|apply confined_trans|intros ? ? ?]
    | match goal with
      | |- keeps _ (let (_, _) := ?x in _) => destruct x
      | |- keeps _ (match ?x with [] => _ | _ :: _ => _ end) =>
          let Hx := fresh "Hlist" in
          destruct x eqn:Hx; [|rewrite <- Hx; clear Hx]
      | |- keeps _ (if ?b then _ else _) => destruct b eqn:?
      | |- keeps _ (match ?x with Some _ => _ | None => _ end) => destruct x eqn:?
      end ].

Ltac keep := keep_with fail.

Section Addressed.
Variable E : env.
Variable inv : inventory.
Variables username password secret : option string.
Variables u p sec : string.
Hypothesis Hcred : credentials username password secret = Some (u, p, sec).
Variables W D : string -> Prop.

Lemma addressed_call w r c a :
  r ∈ routers inv ->
  match c with
  | CSendConfigSet commands => commands ∈ own_command_sets w r
  | _ => True
  end ->
  addressed w inv username password secret (Call (make_device_params r u p sec) c a).
Proof. intros Hr Hc. by exists r, u, p, sec. Qed.

Ltac addressing :=
  first [ exact I
        | intros ?; exact I
        | intros ?; apply addressed_call; [assumption|try exact I] ].

Lemma interfaces_confined cfg r :
  r ∈ routers inv ->
  keeps (confined (addressed (InterfaceWorkflow cfg) inv username password secret) W D)
    (Interfaces.connect_and_configure E r u p sec
       (Interfaces.router_interfaces cfg (name r))).
Proof.
  intros Hr. unfold Interfaces.connect_and_configure, Interfaces.configure_interface,
    enable, send_command, send_config_set, disconnect.
  keep; addressing.
  simpl. by apply list_elem_of_fmap_2.
Qed.

Lemma vlans_confined cfg r :
  r ∈ routers inv ->
  keeps (confined (addressed (VlanWorkflow cfg) inv username password secret) W D)
    (Vlans.connect_and_configure E r u p sec cfg).
Proof.
  intros Hr. unfold Vlans.connect_and_configure, Vlans.configure_subinterface,
    enable, send_command, send_config_set, disconnect.
  keep; addressing.
  simpl. by apply list_elem_of_fmap_2.
Qed.

Lemma routing_confined cfg r :
  r ∈ routers inv ->
  keeps (confined (addressed (RoutingWorkflow cfg) inv username password secret) W D)
    (Routing.connect_and_configure E r u p sec cfg).
Proof.
  intros Hr. unfold Routing.connect_and_configure, Routing.configure_ospf,
    Routing.configure_eigrp, enable, send_command, send_config_set, disconnect.
  keep; addressing.
  all: simpl own_command_sets; apply elem_of_app.
  all: match goal with
       | H1 : Routing.ospf _ = Some ?o,
         H2 : default false (Routing.ospf_enabled ?o) = true
         |- Routing.ospf_commands _ ?o ∈ _ \/ _ => left; rewrite H1, H2; by left
       | H1 : Routing.eigrp _ = Some ?e,
         H2 : default false (Routing.eigrp_enabled ?e) = true
         |- _ \/ Routing.eigrp_commands _ ?e ∈ _ => right; rewrite H1, H2; by left
       end.
Qed.

Lemma backup_confined r :
  r ∈ routers inv ->
  keeps (confined (addressed BackupWorkflow inv username password secret)
                  (artifact_path inv) (eq "backups"))
    (Backup.backup_router_config E r u p sec "backups").
Proof.
  intros Hr. unfold Backup.backup_router_config, enable, send_command, disconnect.
  keep; try addressing.
  - right. exists r. split; [done|]. right. by eexists.
  - right. exists r. split; [done|]. by left.
Qed.
End Addressed.

Section Runs.
Variable E : env.
Variable inv : inventory.
Variables username password secret : option string.

Lemma interfaces_main_confined W D cfg :
  keeps (confined (addressed (InterfaceWorkflow cfg) inv username password secret) W D)
    (Interfaces.main E username password secret inv cfg).
Proof.
  unfold Interfaces.main, Interfaces.process_routers.
  destruct (credentials username password secret) as [[[u p] sec]|] eqn:Hcred.
  - keep_with ltac:(by apply interfaces_confined). done.
  - keep. done.
Qed.

Lemma vlans_main_confined W D cfg :
  keeps (confined (addressed (VlanWorkflow cfg) inv username password secret) W D)
    (Vlans.main E username password secret inv cfg).
Proof.
  unfold Vlans.main, Vlans.process_routers.
  destruct (credentials username password secret) as [[[u p] sec]|] eqn:Hcred.
  - keep_with ltac:(by apply vlans_confined).
  - keep. done.
Qed.

Lemma routing_main_confined W D cfg :
  keeps (confined (addressed (RoutingWorkflow cfg) inv username password secret) W D)
    (Routing.main E username password secret inv cfg).
Proof.
  unfold Routing.main, Routing.process_routers.
  destruct (credentials username password secret) as [[[u p] sec]|] eqn:Hcred.
  - keep_with ltac:(by apply routing_confined). done.
  - keep. done.
Qed.

Lemma backup_main_confined :
  keeps (confined (addressed BackupWorkflow inv username password secret)
                  (artifact_path inv) (eq "backups"))
    (Backup.main E username password secret inv).
Proof.
  unfold Backup.main, Backup.process_routers, Backup.ensure_backup_dir,
    Backup.create_backup_index.
  destruct (credentials username password secret) as [[[u p] sec]|] eqn:Hcred.
  - keep_with ltac:(by apply backup_confined); try done.
    by left.
  - keep. done.
Qed.

Lemma run_confined w :
  keeps (confined (addressed w inv username password secret)
                  (match w with BackupWorkflow => artifact_path inv | _ => nowhere end)
                  (match w with BackupWorkflow => eq "backups" | _ => nowhere end))
    (run E w username password secret inv).
Proof.
  destruct w; simpl.
  - apply interfaces_main_confined.
  - apply vlans_main_confined.
  - apply routing_main_confined.
  - apply backup_main_confined.
Qed.
End Runs.

(** ** The backup directory *)



Section BackupDirectory.
Variable E : env.


End BackupDirectory.

Section BackupIndex.
Variable E : env.

End BackupIndex.

(** ** Start-up checks and runs with nothing to do *)

Lemma credentials_missing username password secret :
  Exists missing [username; password; secret] ->
  credentials username password secret = None.
Proof.
  rewrite !Exists_cons, Exists_nil. unfold credentials, missing.
  destruct username as [[|]|], password as [[|]|], secret as [[|]|]; simpl;
    intuition congruence.
Qed.

Lemma interfaces_loop_skips E u p sec cfg rs counts s :
  Forall (fun r => Interfaces.router_interfaces cfg (name r) = []) rs ->
  for_in rs
    (fun router '(success_count, fail_count) =>
       let router_name := name router in
       let router_interfaces := Interfaces.router_interfaces cfg router_name in
       match router_interfaces with
       | [] =>
           logger WARNING ("No interface configuration found for " +:+ router_name) ;;
           ret (success_count, fail_count)
       | _ :: _ =>
           ok <- Interfaces.connect_and_configure E router u p sec router_interfaces ;;
           if ok : bool
           then ret (S success_count, fail_count)
           else ret (success_count, S fail_count)
       end)
    counts s =
  (inr counts,
   {| trace := trace s ++
        map (fun r => Log WARNING ("No interface configuration found for " +:+ name r)) rs;
      files := files s; dirs := dirs s |}).
Proof.
  intros Hrs. revert s. induction Hrs as [|r rs Hr _ IH]; intros s.
  - simpl. rewrite app_nil_r. by destruct s.
  - cbn [for_in]. destruct counts as [sc fc]. cbv zeta. rewrite Hr.
    unfold bind at 1. unfold bind at 1. unfold logger, ret. rewrite IH.
    simpl. by rewrite <- app_assoc.
Qed.


(** ** Commands wait for privileged mode *)

Lemma guarded_app en evs1 evs2 :
  guarded en (evs1 ++ evs2) = guarded en evs1 && guarded (en || privileged evs1) evs2.
Proof.
  revert en. induction evs1 as [|e evs1 IH]; intros en.
  - simpl. by rewrite orb_false_r.
  - unfold privileged in *.
    destruct e as [d [| | | |] [|] | |]; cbn [app guarded existsb enable_returned];
      rewrite IH; rewrite ?orb_false_l, ?orb_true_l, ?orb_true_r, ?andb_assoc; try done.
Qed.

Lemma guarded_configuring evs :
  Forall (fun e => configuring e = true) evs -> guarded true evs = true.
Proof.
  induction 1 as [|e evs He _ IH]; [done|].
  by destruct e as [d [| | | |] [|] | |].
Qed.

(** ** Sessions that stay open *)

Lemma connected_not_call evs :
  Forall (fun e => is_call e = false) evs -> connected evs = false.
Proof.
  induction 1 as [|e evs He _ IH]; [done|].
  unfold connected in *. simpl. rewrite IH. by destruct e.
Qed.

Lemma session_run_connected d ph evs ph' :
  session_run d ph evs = Some ph' ->
  connected evs =
    match ph, ph' with
    | Idle, (Opened | Closed | Errored) => true
    | _, _ => false
    end.
Proof.
  revert ph. induction evs as [|e evs IH]; intros ph; cbn [session_run].
  - intros [= <-]. by destruct ph.
  - destruct (session_next d ph e) as [ph1|] eqn:Hn; [|done].
    intros H. unfold connected in *. cbn [existsb]. rewrite (IH _ H).
    apply session_next_inv in Hn as [[-> Hc]|(c & a & -> & Hm)].
    + by destruct e.
    + destruct ph, c, a; try done; subst; cbn [connect_returned orb].
      all: try (apply session_run_over in H as [-> _]; done).
      all: try (apply (session_run_opened _ _ _ []) in H as (_ & _ & ? & ?);
                by destruct ph').
Qed.

(** ** The properties *)

(** X1. For every device name and EIGRP description, the commands
    [configure_eigrp] builds are the process entry [router eigrp <as>], then
    [no auto-summary], then one network statement per network listed for the
    device, in the order of the description; the function submits them to
    the device as one command set, whatever the device answers. *)
Theorem eigrp_commands_layout E device router_name cfg s :
  Routing.eigrp_commands router_name cfg =
    [ "router eigrp " +:+ str_of_int (Routing.as_number cfg); "no auto-summary" ] ++
    map (fun n => "network " +:+ Routing.network n +:+ " " +:+ Routing.wildcard n)
        (default [] (Routing.eigrp_networks cfg !! router_name)) /\
  config_sets (trace (Routing.configure_eigrp E device router_name cfg s).2) =
    config_sets (trace s) ++ [(device, Routing.eigrp_commands router_name cfg)].
Proof.
  split; [unfold Routing.eigrp_commands; by rewrite foldl_snoc_each|].
  unfold Routing.configure_eigrp, try_except, bind, send_config_set, device_call.
  destruct (answer_of E _ _ _); unfold logger, ret; simpl trace;
    rewrite <- ?app_assoc; by rewrite !config_sets_app.
Qed.

(** X2. The command sets of one device. Whenever a per-device function
    returns, the command sets it submitted are, once [enable] had returned,
    all the command sets of the router's own entry, each once and in the
    order of the description (a command set that raises does not stop the
    next one), and none when [enable] had not returned. A device reported as
    a success was therefore sent every one of its command sets. *)
Theorem command_sets_all_submitted E w r u p sec s b s' evs :
  device_workflow E w r u p sec s = (inr b, s') ->
  continues s s' evs ->
  config_sets evs =
    (if privileged evs
     then map (pair (make_device_params r u p sec)) (own_command_sets w r)
     else []) /\
  (b = true ->
   config_sets evs = map (pair (make_device_params r u p sec)) (own_command_sets w r)).
Proof.
  intros H Hevs. pose proof (device_workflow_submits E _ _ _ _ _ _ _ _ _ H Hevs) as Hs.
  split; [done|]. intros ->.
  by rewrite (device_workflow_success_privileged E _ _ _ _ _ _ _ _ H Hevs) in Hs.
Qed.

(** The interface workflow on R1 in a world where every command set raises. *)
Lemma command_sets_all_submitted_witness :
  let visit := device_workflow command_sets_fail (InterfaceWorkflow uplink_of_R1) R1
                 "admin" "pw" "en" start in
  visit = (inr true, visit.2) /\
  continues start visit.2 (trace visit.2) /\
  config_sets (trace visit.2) =
    (if privileged (trace visit.2)
     then map (pair (make_device_params R1 "admin" "pw" "en"))
              (own_command_sets (InterfaceWorkflow uplink_of_R1) R1)
     else []) /\
  (true = true ->
   config_sets (trace visit.2) =
     map (pair (make_device_params R1 "admin" "pw" "en"))
         (own_command_sets (InterfaceWorkflow uplink_of_R1) R1)).
Proof.
  cbv zeta.
  assert (device_workflow command_sets_fail (InterfaceWorkflow uplink_of_R1) R1
            "admin" "pw" "en" start =
          (inr true,
           (device_workflow command_sets_fail (InterfaceWorkflow uplink_of_R1) R1
              "admin" "pw" "en" start).2)) as Hrun.
  { vm_compute. reflexivity. }
  split; [exact Hrun|]. split; [reflexivity|].
  exact (command_sets_all_submitted command_sets_fail (InterfaceWorkflow uplink_of_R1)
           R1 "admin" "pw" "en" start true _ _ Hrun eq_refl).
Defined.



(** X4. The credential check. If one of the three credentials is unset or
    empty, every script logs one ERROR entry and exits with status 1: no
    device is contacted and the store is not touched. *)
Theorem missing_credential_stops_run E w username password secret inventory s :
  Exists missing [username; password; secret] ->
  run E w username password secret inventory s =
    (inr 1%Z, record (Log ERROR "Missing credentials. Please check .env file") s).
Proof. intros H. by apply missing_credentials_exit, credentials_missing. Qed.

(** A backup run with an empty password. *)
Lemma missing_credential_stops_run_witness :
  Exists missing [Some "admin"; Some EmptyString; Some "en"] /\
  run calm BackupWorkflow (Some "admin") (Some EmptyString) (Some "en")
      {| routers := [R1; R2] |} start =
    (inr 1%Z, record (Log ERROR "Missing credentials. Please check .env file") start).
Proof.
  assert (Exists missing [Some "admin"; Some EmptyString; Some "en"]) as Hm.
  { apply Exists_cons_tl, Exists_cons_hd. right. reflexivity. }
  split; [exact Hm|].
  exact (missing_credential_stops_run calm BackupWorkflow (Some "admin") (Some EmptyString)
           (Some "en") {| routers := [R1; R2] |} start Hm).
Defined.







(** X9. Whom a run talks to. In every run of a script, each device call is
    made with the parameters built from a router of the inventory and the
    credentials of the environment, and each command set submitted is one of
    the command sets of that router's own entry in the description. *)
Theorem calls_addressed_to_inventory E w username password secret inv s :
  exists evs,
    continues s (run E w username password secret inv s).2 evs /\
    Forall (addressed w inv username password secret) evs.
Proof. apply (run_confined E inv username password secret w s). Qed.

(** X10. Success means saved. A device that the interface or routing
    workflow, or the VLAN workflow for a router with subinterfaces, reports
    as a success has had [write memory] return, immediately followed by a
    [disconnect] that returned, at the end of its session. The backup, and
    the VLAN workflow for a router without subinterfaces, never send
    [write memory]. *)
Theorem success_means_saved E w r u p sec s s' evs :
  device_workflow E w r u p sec s = (inr true, s') ->
  continues s s' evs ->
  if saves w r
  then exists x y,
         [ Call (make_device_params r u p sec) (CSendCommand "write memory") (inr x);
           Call (make_device_params r u p sec) CDisconnect (inr y) ] `suffix_of` evs
  else Forall (fun e => save_call e = false) evs.
Proof.
  intros H Hevs. set (d := make_device_params r u p sec) in *.
  destruct w as [cfg|cfg|cfg|]; simpl in H; simpl saves.
  - unfold Interfaces.connect_and_configure in H. fold d in H. unwind.
    all: try match goal with
         | Hl : for_in _ _ _ _ = _ |- _ =>
             loop_in Hl d Interfaces.interface_commands; simplify_eq
         end.
    all: events_of Hevs; eexists _, _; at_the_end.
  - unfold Vlans.connect_and_configure in H. fold d in H. unwind.
    all: try match goal with
         | Hl : for_in _ _ _ _ = _ |- _ =>
             loop_in Hl d Vlans.subinterface_commands; simplify_eq
         end.
    all: events_of Hevs.
    all: first [ by repeat constructor | eexists _, _; at_the_end ].
  - unfold Routing.connect_and_configure, Routing.configure_ospf,
      Routing.configure_eigrp in H. fold d in H. unwind.
    all: events_of Hevs; eexists _, _; at_the_end.
  - apply bind_returns in H as ([ok fn] & s1 & H & Hr).
    apply ret_returns in Hr as [-> <-].
    unfold Backup.backup_router_config in H. fold d in H. unwind.
    all: events_of Hevs; by repeat constructor.
Qed.

(** The routing workflow on R1 in a world where every call returns. *)
Lemma success_means_saved_witness :
  let visit := device_workflow calm (RoutingWorkflow ospf_only) R1
                 "admin" "pw" "en" start in
  visit = (inr true, visit.2) /\
  continues start visit.2 (trace visit.2) /\
  if saves (RoutingWorkflow ospf_only) R1
  then exists x y,
         [ Call (make_device_params R1 "admin" "pw" "en")
                (CSendCommand "write memory") (inr x);
           Call (make_device_params R1 "admin" "pw" "en") CDisconnect (inr y) ]
         `suffix_of` trace visit.2
  else Forall (fun e => save_call e = false) (trace visit.2).
Proof.
  cbv zeta.
  assert (device_workflow calm (RoutingWorkflow ospf_only) R1 "admin" "pw" "en" start =
          (inr true,
           (device_workflow calm (RoutingWorkflow ospf_only) R1
              "admin" "pw" "en" start).2)) as Hrun.
  { vm_compute. reflexivity. }
  split; [exact Hrun|]. split; [reflexivity|].
  exact (success_means_saved calm (RoutingWorkflow ospf_only)
           R1 "admin" "pw" "en" start _ _ Hrun eq_refl).
Defined.


(** X12. Nothing to configure. In the interface script, when no router of
    the inventory has an interface (no entry, an entry without [interfaces],
    or an empty list), a run that passed the credential check logs one
    warning per router, in inventory order, contacts no device, leaves the
    store alone and exits with status 0. *)
Theorem interfaces_nothing_to_configure E username password secret inv cfg u p sec s :
  credentials username password secret = Some (u, p, sec) ->
  Forall (fun r => Interfaces.router_interfaces cfg (name r) = []) (routers inv) ->
  Interfaces.main E username password secret inv cfg s =
    (inr 0%Z,
     {| trace := trace s ++
          map (fun r => Log WARNING ("No interface configuration found for " +:+ name r))
              (routers inv);
        files := files s; dirs := dirs s |}).
Proof.
  intros Hcred Hnone. unfold Interfaces.main, Interfaces.process_routers.
  rewrite Hcred. unfold bind at 1. by rewrite interfaces_loop_skips.
Qed.

(** R1 and R2 with an interface description that names neither. *)
Lemma interfaces_nothing_to_configure_witness :
  credentials (Some "admin") (Some "pw") (Some "en") = Some ("admin", "pw", "en") /\
  Forall (fun r => Interfaces.router_interfaces ∅ (name r) = [])
         (routers {| routers := [R1; R2] |}) /\
  Interfaces.main connection_fails (Some "admin") (Some "pw") (Some "en")
      {| routers := [R1; R2] |} ∅ start =
    (inr 0%Z,
     {| trace := trace start ++
          map (fun r => Log WARNING ("No interface configuration found for " +:+ name r))
              (routers {| routers := [R1; R2] |});
        files := files start; dirs := dirs start |}).
Proof.
  assert (Forall (fun r => Interfaces.router_interfaces ∅ (name r) = [])
                 (routers {| routers := [R1; R2] |})) as Hnone.
  { repeat constructor. }
  split; [reflexivity|]. split; [exact Hnone|].
  exact (interfaces_nothing_to_configure connection_fails (Some "admin") (Some "pw")
           (Some "en") {| routers := [R1; R2] |} ∅ "admin" "pw" "en" start eq_refl Hnone).
Defined.

(** X13. Commands wait for privileged mode. In the session of a per-device
    function no command and no command set is sent before [enable] has
    returned: when the connection or [enable] raises, the device is sent
    nothing more. *)
Theorem commands_wait_for_enable E w r u p sec s b s' evs :
  device_workflow E w r u p sec s = (inr b, s') ->
  continues s s' evs ->
  guarded false evs = true.
Proof.
  intros H Hevs. set (d := make_device_params r u p sec) in *.
  destruct w as [cfg|cfg|cfg|]; simpl in H.
  - unfold Interfaces.connect_and_configure in H. fold d in H. unwind.
    all: try match goal with
         | Hl : for_in _ _ _ _ = _ |- _ =>
             loop_in Hl d Interfaces.interface_commands; simplify_eq
         end.
    all: events_of Hevs.
    all: rewrite ?guarded_app; cbn [guarded privileged existsb enable_returned orb andb];
      rewrite ?guarded_configuring by done; reflexivity.
  - unfold Vlans.connect_and_configure in H. fold d in H. unwind.
    all: try match goal with
         | Hl : for_in _ _ _ _ = _ |- _ =>
             loop_in Hl d Vlans.subinterface_commands; simplify_eq
         end.
    all: events_of Hevs.
    all: rewrite ?guarded_app; cbn [guarded privileged existsb enable_returned orb andb];
      rewrite ?guarded_configuring by done; reflexivity.
  - unfold Routing.connect_and_configure, Routing.configure_ospf,
      Routing.configure_eigrp in H. fold d in H. unwind.
    all: events_of Hevs; reflexivity.
  - apply bind_returns in H as ([ok fn] & s1 & H & Hr).
    apply ret_returns in Hr as [-> <-].
    unfold Backup.backup_router_config in H. fold d in H. unwind.
    all: events_of Hevs; reflexivity.
Qed.

(** The VLAN workflow on R1, which has no subinterface, in a world where
    every call returns. *)
Lemma commands_wait_for_enable_witness :
  let visit := device_workflow calm (VlanWorkflow no_subinterfaces) R1
                 "admin" "pw" "en" start in
  visit = (inr true, visit.2) /\
  continues start visit.2 (trace visit.2) /\
  guarded false (trace visit.2) = true.
Proof.
  cbv zeta.
  assert (device_workflow calm (VlanWorkflow no_subinterfaces) R1 "admin" "pw" "en" start =
          (inr true,
           (device_workflow calm (VlanWorkflow no_subinterfaces) R1
              "admin" "pw" "en" start).2)) as Hrun.
  { vm_compute. reflexivity. }
  split; [exact Hrun|]. split; [reflexivity|].
  exact (commands_wait_for_enable calm (VlanWorkflow no_subinterfaces)
           R1 "admin" "pw" "en" start true _ _ Hrun eq_refl).
Defined.

(** X14. Sessions that stay open. The [except] handler of a per-device
    function never disconnects: when a device is reported as a failure, no
    [disconnect] returned in its session, and the session stays open exactly
    when [ConnectHandler] had returned (the failure came later); the sessions
    open before are open still. *)
Theorem failed_device_leaves_session_open E w r u p sec s s' evs :
  device_workflow E w r u p sec s = (inr false, s') ->
  continues s s' evs ->
  closes evs = [] /\
  open_sessions (trace s') =
    if connected evs
    then make_device_params r u p sec :: open_sessions (trace s)
    else open_sessions (trace s).
Proof.
  intros H Hevs.
  destruct (tracks_returns _ _ _ _ s (device_workflow_session E w r u p sec))
    as (b & s1 & evs' & ph & Hm & Hc & Hr & Hf).
  rewrite H in Hm. injection Hm as <- <-.
  unfold continues in *. rewrite Hevs in Hc. apply app_inv_head in Hc as <-.
  rewrite Hevs, open_sessions_app.
  rewrite (session_run_idle_closes _ _ _ Hr), (session_run_connected _ _ _ _ Hr).
  apply (session_run_idle _ _ _ (open_sessions (trace s))) in Hr as [_ ->];
    [|by eapply finished_not_idle].
  by destruct ph.
Qed.

(** The interface workflow on R1 in a world where [write memory] raises. *)
Lemma failed_device_leaves_session_open_witness :
  let visit := device_workflow save_fails (InterfaceWorkflow uplink_of_R1) R1
                 "admin" "pw" "en" start in
  visit = (inr false, visit.2) /\
  continues start visit.2 (trace visit.2) /\
  closes (trace visit.2) = [] /\
  open_sessions (trace visit.2) =
    if connected (trace visit.2)
    then make_device_params R1 "admin" "pw" "en" :: open_sessions (trace start)
    else open_sessions (trace start).
Proof.
  cbv zeta.
  assert (device_workflow save_fails (InterfaceWorkflow uplink_of_R1) R1
            "admin" "pw" "en" start =
          (inr false,
           (device_workflow save_fails (InterfaceWorkflow uplink_of_R1) R1
              "admin" "pw" "en" start).2)) as Hrun.
  { vm_compute. reflexivity. }
  split; [exact Hrun|]. split; [reflexivity|].
  exact (failed_device_leaves_session_open save_fails (InterfaceWorkflow uplink_of_R1)
           R1 "admin" "pw" "en" start _ _ Hrun eq_refl).
Defined.
